(** * TrafficSense AI: the analysis scheduler, the analyzer client and the
      history buffer

    A shallow embedding of
    - [types.ts] (the result record),
    - [services/geminiService] ([analyzeTrafficFrame]),
    - [App.tsx] (the top-level state and its handlers),
    - [components/CameraFeed] in its two revisions: the one with the
      manual override and the retry countdown (module [CameraFeed]) and
      the earlier one kept in [src/components/CameraFeed.tsx] (module
      [CameraFeedTsx]).

    Conventions.
    - A JavaScript [number] that the code does arithmetic on (delays,
      instants) is a rational [Q]: every value computed here is a dyadic
      rational far inside the range in which IEEE doubles are exact, and
      [Math.min] against the cap gives the same answer for an overflowed
      power of two as for the exact one.  [Date.now()] is an integer [Z] of
      milliseconds.  The failure counter only ever sees [= 0] and [+= 1]
      and is a [nat].
    - TypeScript types are erased at run time, so a value read out of a
      parsed JSON document is a [JSValue], whatever the interface says.
    - [useState] setters and ref writes are state updates on a record; the
      closure of an effect instance (the props and state of the render that
      created it) is a separate record, since it may be stale when an
      awaited call resolves.
    - A thrown value is observed by the code through [.name], [.message],
      [JSON.stringify] and [String]; [JsError] records these four. *)

From Stdlib Require Import ZArith QArith Qpower Qminmax Qround Lqa Lia.
From stdpp Require Import base strings list gmap.

(** ** JavaScript run-time values *)

#[warnings="-register-all"]
Inductive JSValue : Type :=
| JUndefined
| JNull
| JBool (b : bool)
| JNumber (q : Q)
| JString (s : string)
| JArray (items : list JSValue)
| JObject (fields : gmap string JSValue).

(** ToBoolean, as used by [!x] and [x || y]. *)
Definition truthy (v : JSValue) : bool :=
  match v with
  | JUndefined | JNull => false
  | JBool b => b
  | JNumber q => negb (Qeq_bool q 0)
  | JString s => negb (String.eqb s EmptyString)
  | JArray _ | JObject _ => true
  end.

(** [a || b] on values. *)
Definition js_or (a b : JSValue) : JSValue := if truthy a then a else b.

(** [s || t] on strings: the empty string is falsy. *)
Definition str_or (s t : string) : string := if String.eqb s EmptyString then t else s.

(** [hay.includes(needle)] *)
Fixpoint includes (hay needle : string) : bool :=
  String.prefix needle hay
  || match hay with
     | EmptyString => false
     | String _ rest => includes rest needle
     end.

(** A thrown value, through the four observations the code makes of it. *)
Record JsError : Type := {
  err_name : string;        (* err.name *)
  err_message : string;     (* err.message *)
  err_json : string;        (* JSON.stringify(err) *)
  err_string : string       (* String(err) *)
}.

(** [new Error(msg)] *)
Definition newError (msg : string) : JsError :=
  {| err_name := "Error";
     err_message := msg;
     err_json := "{}";
     err_string := if String.eqb msg EmptyString then "Error" else "Error: " +:+ msg |}.

(** The [TypeError] of a property read on [null]. *)
Definition nullPropertyError (prop : string) : JsError :=
  let msg := "Cannot read properties of null (reading '" +:+ prop +:+ "')" in
  {| err_name := "TypeError";
     err_message := msg;
     err_json := "{}";
     err_string := "TypeError: " +:+ msg |}.

(** [json.prop]: a read on [null] or [undefined] throws, an object gives the
    member or [undefined], any other value has no such member. *)
Definition getProp (json : JSValue) (prop : string) : JsError + JSValue :=
  match json with
  | JUndefined | JNull => inl (nullPropertyError prop)
  | JObject fields => inr (default JUndefined (fields !! prop))
  | _ => inr JUndefined
  end.

(** ** types.ts *)

(** [TrafficAnalysisResult].  The four fields copied from the service's
    answer hold whatever the answer held. *)
Record TrafficAnalysisResult : Type := {
  vehicleCount : JSValue;
  congestionLevel : JSValue;
  description : JSValue;
  detectedObjects : JSValue;
  timestamp : string;
  processedAt : Z
}.

(** What the interface of [types.ts] promises of a result. *)
Definition isCongestionLevel (v : JSValue) : bool :=
  match v with
  | JString s => String.eqb s "Low" || String.eqb s "Medium" || String.eqb s "High"
  | _ => false
  end.

Definition isNumber (v : JSValue) : bool :=
  match v with JNumber _ => true | _ => false end.

Definition isString (v : JSValue) : bool :=
  match v with JString _ => true | _ => false end.

Definition isArray (v : JSValue) : bool :=
  match v with JArray _ => true | _ => false end.

Definition wellTyped (r : TrafficAnalysisResult) : bool :=
  isNumber (vehicleCount r) && isCongestionLevel (congestionLevel r)
  && isString (description r) && isArray (detectedObjects r).

(** ** services/geminiService *)

Module geminiService.

(** [response.text] and what [JSON.parse] makes of it. *)
Inductive ResponseText : Type :=
| NoText                          (* text is undefined or empty *)
| Unparsable (e : JsError)        (* JSON.parse throws e *)
| Parsed (json : JSValue).        (* JSON.parse returns json *)

(** The outcome of [ai.models.generateContent]. *)
Inductive ServiceOutcome : Type :=
| CallThrows (e : JsError)
| CallReturns (text : ResponseText).

(** What the call sees of its environment. *)
Record Env : Type := {
  API_KEY : option string;                     (* process.env.API_KEY *)
  generateContent : string -> ServiceOutcome;  (* the service, per image *)
  toLocaleTimeString : string;                 (* new Date().toLocaleTimeString() *)
  dateNow : Z                                  (* Date.now() *)
}.

(** The markers of the [catch] block. *)
Definition quotaMarker (errorMessage : string) : bool :=
  includes errorMessage "429"
  || includes errorMessage "RESOURCE_EXHAUSTED"
  || includes errorMessage "quota"
  || includes errorMessage "exceeded".

(** The body of the [try] block. *)
Definition tryBody (env : Env) (base64Image : string)
  : JsError + TrafficAnalysisResult :=
  match generateContent env base64Image with
  | CallThrows e => inl e
  | CallReturns NoText => inl (newError "No response from Gemini")
  | CallReturns (Unparsable e) => inl e
  | CallReturns (Parsed json) =>
      match getProp json "vehicleCount", getProp json "congestionLevel",
            getProp json "description", getProp json "detectedObjects" with
      | inr vc, inr cl, inr d, inr objs =>
          inr {| vehicleCount := vc;
                 congestionLevel := cl;
                 description := d;
                 detectedObjects := js_or objs (JArray []);
                 timestamp := toLocaleTimeString env;
                 processedAt := dateNow env |}
      | inl e, _, _, _ => inl e
      | _, inl e, _, _ => inl e
      | _, _, inl e, _ => inl e
      | _, _, _, inl e => inl e
      end
  end.

Definition analyzeTrafficFrame (env : Env) (base64Image : string)
  : JsError + TrafficAnalysisResult :=
  match API_KEY env with
  | None | Some EmptyString =>
      inl (newError "API Key not found in environment variables.")
  | Some _ =>
      match tryBody env base64Image with
      | inr result => inr result
      | inl error =>
          let errorMessage := str_or (err_message error) (err_string error) in
          if quotaMarker errorMessage
          then inl (newError "QUOTA_EXCEEDED")
          else inl error
      end
  end.

End geminiService.

(** ** App.tsx *)

Module App.

Record State : Type := {
  isAnalyzing : bool;
  history : list TrafficAnalysisResult;
  latestResult : option TrafficAnalysisResult;
  error : option string
}.

(** The four [useState] initial values. *)
Definition initial : State :=
  {| isAnalyzing := false; history := []; latestResult := None; error := None |}.

(** [xs.slice(-n)]: the last [n] elements. *)
Definition sliceLast {A : Type} (n : nat) (xs : list A) : list A :=
  drop (length xs - n) xs.

Definition handleAnalysisComplete (result : TrafficAnalysisResult) (s : State) : State :=
  {| isAnalyzing := isAnalyzing s;
     history := sliceLast 50 (history s ++ [result]);
     latestResult := Some result;
     error := None |}.

Definition handleError (err : string) (s : State) : State :=
  {| isAnalyzing := false;
     history := history s;
     latestResult := latestResult s;
     error := Some err |}.

Definition toggleAnalysis (s : State) : State :=
  {| isAnalyzing := negb (isAnalyzing s);
     history := history s;
     latestResult := latestResult s;
     error := if negb (isAnalyzing s) then None else error s |}.

(** The [intervalMs] prop handed to the camera feed. *)
Definition intervalMs : Q := 20000.

(** The events that change the top-level state. *)
Inductive Event : Type :=
| AnalysisComplete (result : TrafficAnalysisResult)
| Error (err : string)
| Toggle.

Definition step (s : State) (e : Event) : State :=
  match e with
  | AnalysisComplete result => handleAnalysisComplete result s
  | Error err => handleError err s
  | Toggle => toggleAnalysis s
  end.

Definition run (s : State) (es : list Event) : State := foldl step s es.

(** The invariant tying [latestResult] to the buffer. *)
Definition latestIsLast (s : State) : Prop :=
  latestResult s = last (history s).

End App.

(** ** components/CameraFeed, the revision with the manual override *)

Module CameraFeed.

Local Open Scope Q_scope.

(** Refs, [useState] cells and the countdown interval of the component. *)
Record State : Type := {
  errorCountRef : nat;
  nextRetryTimeRef : Q;
  isStreamActive : bool;
  permissionDenied : bool;
  permissionErrorMsg : string;
  detectedBoxes : JSValue;
  isRateLimited : bool;
  retryCountdown : Z;
  remaining : option Q        (* the running countdown interval, if any *)
}.

Definition initial : State :=
  {| errorCountRef := 0; nextRetryTimeRef := 0; isStreamActive := false;
     permissionDenied := false; permissionErrorMsg := EmptyString;
     detectedBoxes := JArray []; isRateLimited := false;
     retryCountdown := 0; remaining := None |}.

(** The component together with the parent whose handlers it is given. *)
Record World : Type := { app : App.State; feed : State }.

Definition onApp (f : App.State -> App.State) (w : World) : World :=
  {| app := f (app w); feed := feed w |}.

Definition onFeed (f : State -> State) (w : World) : World :=
  {| app := app w; feed := f (feed w) |}.

Definition setErrorCount (n : nat) (s : State) : State :=
  {| errorCountRef := n; nextRetryTimeRef := nextRetryTimeRef s;
     isStreamActive := isStreamActive s; permissionDenied := permissionDenied s;
     permissionErrorMsg := permissionErrorMsg s; detectedBoxes := detectedBoxes s;
     isRateLimited := isRateLimited s; retryCountdown := retryCountdown s;
     remaining := remaining s |}.

Definition setNextRetryTime (t : Q) (s : State) : State :=
  {| errorCountRef := errorCountRef s; nextRetryTimeRef := t;
     isStreamActive := isStreamActive s; permissionDenied := permissionDenied s;
     permissionErrorMsg := permissionErrorMsg s; detectedBoxes := detectedBoxes s;
     isRateLimited := isRateLimited s; retryCountdown := retryCountdown s;
     remaining := remaining s |}.

Definition setIsStreamActive (b : bool) (s : State) : State :=
  {| errorCountRef := errorCountRef s; nextRetryTimeRef := nextRetryTimeRef s;
     isStreamActive := b; permissionDenied := permissionDenied s;
     permissionErrorMsg := permissionErrorMsg s; detectedBoxes := detectedBoxes s;
     isRateLimited := isRateLimited s; retryCountdown := retryCountdown s;
     remaining := remaining s |}.

Definition setPermissionDenied (b : bool) (s : State) : State :=
  {| errorCountRef := errorCountRef s; nextRetryTimeRef := nextRetryTimeRef s;
     isStreamActive := isStreamActive s; permissionDenied := b;
     permissionErrorMsg := permissionErrorMsg s; detectedBoxes := detectedBoxes s;
     isRateLimited := isRateLimited s; retryCountdown := retryCountdown s;
     remaining := remaining s |}.

Definition setPermissionErrorMsg (m : string) (s : State) : State :=
  {| errorCountRef := errorCountRef s; nextRetryTimeRef := nextRetryTimeRef s;
     isStreamActive := isStreamActive s; permissionDenied := permissionDenied s;
     permissionErrorMsg := m; detectedBoxes := detectedBoxes s;
     isRateLimited := isRateLimited s; retryCountdown := retryCountdown s;
     remaining := remaining s |}.

Definition setDetectedBoxes (v : JSValue) (s : State) : State :=
  {| errorCountRef := errorCountRef s; nextRetryTimeRef := nextRetryTimeRef s;
     isStreamActive := isStreamActive s; permissionDenied := permissionDenied s;
     permissionErrorMsg := permissionErrorMsg s; detectedBoxes := v;
     isRateLimited := isRateLimited s; retryCountdown := retryCountdown s;
     remaining := remaining s |}.

Definition setIsRateLimited (b : bool) (s : State) : State :=
  {| errorCountRef := errorCountRef s; nextRetryTimeRef := nextRetryTimeRef s;
     isStreamActive := isStreamActive s; permissionDenied := permissionDenied s;
     permissionErrorMsg := permissionErrorMsg s; detectedBoxes := detectedBoxes s;
     isRateLimited := b; retryCountdown := retryCountdown s;
     remaining := remaining s |}.

Definition setRetryCountdown (n : Z) (s : State) : State :=
  {| errorCountRef := errorCountRef s; nextRetryTimeRef := nextRetryTimeRef s;
     isStreamActive := isStreamActive s; permissionDenied := permissionDenied s;
     permissionErrorMsg := permissionErrorMsg s; detectedBoxes := detectedBoxes s;
     isRateLimited := isRateLimited s; retryCountdown := n;
     remaining := remaining s |}.

Definition setRemaining (r : option Q) (s : State) : State :=
  {| errorCountRef := errorCountRef s; nextRetryTimeRef := nextRetryTimeRef s;
     isStreamActive := isStreamActive s; permissionDenied := permissionDenied s;
     permissionErrorMsg := permissionErrorMsg s; detectedBoxes := detectedBoxes s;
     isRateLimited := isRateLimited s; retryCountdown := retryCountdown s;
     remaining := r |}.

(** What an effect instance closed over: the [isAnalyzing] and [intervalMs]
    props and the [isStreamActive] state of the render that created it. *)
Record Closure : Type := {
  isAnalyzing : bool;
  streamActive : bool;
  intervalMs : Q
}.

(** What the environment answers during one pass of the loop. *)
Record Cycle : Type := {
  domReady : bool;                (* the video, the canvas and its 2d context exist *)
  frame : JsError + string;       (* drawImage/toDataURL throws, or the base64 image *)
  service : geminiService.Env;
  isMounted : bool;               (* the effect is not cleaned up when the await resolves *)
  catchNow : Z                    (* Date.now() inside the catch block *)
}.

(** The catch block of [startCamera]. *)
Definition cameraErrorMsg (err : JsError) : string :=
  if String.eqb (err_name err) "NotAllowedError"
     || String.eqb (err_name err) "PermissionDeniedError"
  then "Camera permission denied. Please allow access in your browser settings (lock icon)."
  else if String.eqb (err_name err) "NotFoundError"
  then "No camera device found."
  else if String.eqb (err_name err) "NotReadableError"
  then "Camera is currently in use by another application."
  else "Could not access camera.".

Definition startCameraFailed (err : JsError) (w : World) : World :=
  let msg := cameraErrorMsg err in
  onApp (App.handleError msg)
    (onFeed (fun s => setPermissionErrorMsg msg
                        (setIsStreamActive false (setPermissionDenied true s))) w).

Definition corsMessage : string :=
  "CORS Error: Cannot analyze this video stream. The server must allow cross-origin access (Access-Control-Allow-Origin).".

(** [captureAndAnalyze]: the new world, and the error it rethrows if any. *)
Definition captureAndAnalyze (c : Closure) (cy : Cycle) (w : World)
  : World * option JsError :=
  if negb (domReady cy) || negb (streamActive c) then (w, None)
  else
    let outcome :=
      match frame cy with
      | inl e => inl e
      | inr base64Image => geminiService.analyzeTrafficFrame (service cy) base64Image
      end in
    match outcome with
    | inr result =>
        (onApp (App.handleAnalysisComplete result)
           (onFeed (fun s => setIsRateLimited false
                               (setDetectedBoxes (detectedObjects result) s)) w),
         None)
    | inl err =>
        if String.eqb (err_name err) "SecurityError"
        then (onApp (App.handleError corsMessage) w, None)
        else (w, Some err)
    end.

Definition handleForceRetry (s : State) : State :=
  setIsRateLimited false (setNextRetryTime 0 (setErrorCount 0 s)).

(** The markers of the loop's catch block. *)
Definition isQuota (err : JsError) : bool :=
  let errorMessage := str_or (err_message err) (err_json err) in
  includes errorMessage "QUOTA_EXCEEDED"
  || includes errorMessage "429"
  || includes errorMessage "RESOURCE_EXHAUSTED".

Definition backoffFloor : Q := 10000.
Definition backoffCeiling : Q := 120000.

(** [Math.min(10000 * Math.pow(2, errorCount - 1), 120000)] *)
Definition backoffMs (errorCount : nat) : Q :=
  Qmin (backoffFloor * 2 ^ (Z.of_nat errorCount - 1)) backoffCeiling.

(** [Date.now() < nextRetryTimeRef.current] *)
Definition mustWait (now : Z) (s : State) : bool :=
  negb (Qle_bool (nextRetryTimeRef s) (inject_Z now)).

(** The quota branch: the new state and the delay of the re-entry timer. *)
Definition onQuota (now : Z) (s : State) : State * Q :=
  let n := (errorCountRef s + 1)%nat in
  let backoff := backoffMs n in
  (setRemaining (Some backoff)
     (setRetryCountdown (Qceiling (backoff / 1000))
        (setIsRateLimited true
           (setNextRetryTime (inject_Z now + backoff)
              (setErrorCount n s)))),
   backoff).

(** One tick of the countdown interval. *)
Definition countdownTick (s : State) : State :=
  match remaining s with
  | None => s
  | Some r =>
      let r' := r - 1000 in
      setRetryCountdown (Z.max 0%Z (Qceiling (r' / 1000)))
        (setRemaining (if Qle_bool r' 0 then None else Some r') s)
  end.

(** One call of [loop]: the new world and the delay passed to
    [window.setTimeout(loop, _)], if the loop re-armed itself. *)
Definition loop (c : Closure) (now : Z) (cy : Cycle) (w : World)
  : World * option Q :=
  if negb (isAnalyzing c) || negb (streamActive c) then (w, None)
  else if mustWait now (feed w) then (w, Some 1000)
  else
    match captureAndAnalyze c cy w with
    | (w1, None) =>
        if isMounted cy && isAnalyzing c
        then (onFeed (fun s => setIsRateLimited false (setErrorCount 0 s)) w1,
              Some (intervalMs c))
        else (w1, None)
    | (w1, Some err) =>
        if isMounted cy && isAnalyzing c
        then
          if isQuota err
          then
            let '(s, backoff) := onQuota (catchNow cy) (feed w1) in
            ({| app := app w1; feed := s |}, Some backoff)
          else (w1, Some (intervalMs c * 1.5))
        else (w1, None)
    end.

(** The else branch of the effect: the reset when stopped. *)
Definition stopReset (s : State) : State :=
  setIsRateLimited false (setNextRetryTime 0 (setErrorCount 0 s)).

(** The effect's cleanup ends the countdown interval (and the timer). *)
Definition cleanup (s : State) : State := setRemaining None s.

(** The body of the loop effect. *)
Definition analysisEffect (c : Closure) (now : Z) (cy : Cycle) (w : World)
  : World * option Q :=
  if isAnalyzing c && streamActive c
  then loop c now cy w
  else (onFeed stopReset w, None).

(** Which path a call of [loop] takes. *)
Inductive Branch : Type :=
| Idle                (* not analyzing, or no active stream: plain return *)
| Waiting             (* not yet eligible: re-poll *)
| Cancelled           (* the await resolved after the effect was cleaned up *)
| Completed           (* captureAndAnalyze returned: the success path *)
| QuotaFailure        (* it threw and the message carries a quota marker *)
| TransientFailure.   (* it threw anything else *)

Definition branch (c : Closure) (now : Z) (cy : Cycle) (w : World) : Branch :=
  if negb (isAnalyzing c) || negb (streamActive c) then Idle
  else if mustWait now (feed w) then Waiting
  else if negb (isMounted cy && isAnalyzing c) then Cancelled
  else match (captureAndAnalyze c cy w).2 with
       | None => Completed
       | Some err => if isQuota err then QuotaFailure else TransientFailure
       end.


(** A step of the scheduler while it runs: a call of [loop], or the manual
    override. *)
Inductive Step : State -> State -> Prop :=
| StepLoop (c : Closure) (now : Z) (cy : Cycle) (w : World) :
    (now <= catchNow cy)%Z ->
    Step (feed w) (feed (loop c now cy w).1)
| StepForceRetry (s : State) :
    Step s (handleForceRetry s).

End CameraFeed.

(** ** src/components/CameraFeed.tsx, the earlier revision *)

Module CameraFeedTsx.

Local Open Scope Q_scope.

Record State : Type := {
  errorCountRef : nat;
  isStreamActive : bool;
  permissionDenied : bool;
  detectedBoxes : JSValue;
  isRateLimited : bool
}.

Definition initial : State :=
  {| errorCountRef := 0; isStreamActive := false; permissionDenied := false;
     detectedBoxes := JArray []; isRateLimited := false |}.

Record World : Type := { app : App.State; feed : State }.

Definition onApp (f : App.State -> App.State) (w : World) : World :=
  {| app := f (app w); feed := feed w |}.

Definition onFeed (f : State -> State) (w : World) : World :=
  {| app := app w; feed := f (feed w) |}.

Definition setErrorCount (n : nat) (s : State) : State :=
  {| errorCountRef := n; isStreamActive := isStreamActive s;
     permissionDenied := permissionDenied s; detectedBoxes := detectedBoxes s;
     isRateLimited := isRateLimited s |}.

Definition setDetectedBoxes (v : JSValue) (s : State) : State :=
  {| errorCountRef := errorCountRef s; isStreamActive := isStreamActive s;
     permissionDenied := permissionDenied s; detectedBoxes := v;
     isRateLimited := isRateLimited s |}.

Definition setIsRateLimited (b : bool) (s : State) : State :=
  {| errorCountRef := errorCountRef s; isStreamActive := isStreamActive s;
     permissionDenied := permissionDenied s; detectedBoxes := detectedBoxes s;
     isRateLimited := b |}.

Record Closure : Type := {
  isAnalyzing : bool;
  streamActive : bool;
  intervalMs : Q
}.

Record Cycle : Type := {
  domReady : bool;
  frame : JsError + string;
  service : geminiService.Env;
  isMounted : bool
}.

Definition corsMessage : string :=
  "CORS Error: Cannot analyze this video stream. The server must allow cross-origin access (Access-Control-Allow-Origin).".

Definition captureAndAnalyze (c : Closure) (cy : Cycle) (w : World)
  : World * option JsError :=
  if negb (domReady cy) || negb (streamActive c) then (w, None)
  else
    let outcome :=
      match frame cy with
      | inl e => inl e
      | inr base64Image => geminiService.analyzeTrafficFrame (service cy) base64Image
      end in
    match outcome with
    | inr result =>
        (onApp (App.handleAnalysisComplete result)
           (onFeed (fun s => setIsRateLimited false
                               (setDetectedBoxes (detectedObjects result) s)) w),
         None)
    | inl err =>
        if String.eqb (err_name err) "SecurityError"
        then (onApp (App.handleError corsMessage) w, None)
        else (w, Some err)
    end.

Definition isQuota (err : JsError) : bool :=
  let errorMessage := str_or (err_message err) (err_json err) in
  includes errorMessage "QUOTA_EXCEEDED"
  || includes errorMessage "429"
  || includes errorMessage "RESOURCE_EXHAUSTED".

Definition backoffFloor : Q := 30000.
Definition backoffCeiling : Q := 300000.

(** [Math.min(30000 * Math.pow(2, errorCount - 1), 300000)] *)
Definition backoffMs (errorCount : nat) : Q :=
  Qmin (backoffFloor * 2 ^ (Z.of_nat errorCount - 1)) backoffCeiling.

Definition loop (c : Closure) (cy : Cycle) (w : World) : World * option Q :=
  if negb (isAnalyzing c) || negb (streamActive c) then (w, None)
  else
    match captureAndAnalyze c cy w with
    | (w1, None) =>
        if isMounted cy && isAnalyzing c
        then (onFeed (fun s => setIsRateLimited false (setErrorCount 0 s)) w1,
              Some (intervalMs c))
        else (w1, None)
    | (w1, Some err) =>
        if isMounted cy && isAnalyzing c
        then
          if isQuota err
          then
            let n := (errorCountRef (feed w1) + 1)%nat in
            (onFeed (fun s => setIsRateLimited true (setErrorCount n s)) w1,
             Some (backoffMs n))
          else (w1, Some (intervalMs c * 1.5))
        else (w1, None)
    end.

Definition stopReset (s : State) : State :=
  setIsRateLimited false (setErrorCount 0 s).

Inductive Branch : Type :=
| Idle | Cancelled | Completed | QuotaFailure | TransientFailure.

Definition branch (c : Closure) (cy : Cycle) (w : World) : Branch :=
  if negb (isAnalyzing c) || negb (streamActive c) then Idle
  else if negb (isMounted cy && isAnalyzing c) then Cancelled
  else match (captureAndAnalyze c cy w).2 with
       | None => Completed
       | Some err => if isQuota err then QuotaFailure else TransientFailure
       end.

End CameraFeedTsx.

(** ** Sample inputs *)

Module Sample.

Local Open Scope Q_scope.

Definition result (n : Z) : TrafficAnalysisResult :=
  {| vehicleCount := JNumber (inject_Z n);
     congestionLevel := JString "Medium";
     description := JString "Steady traffic.";
     detectedObjects := JArray [];
     timestamp := "12:00:00";
     processedAt := n |}.

Definition env (key : option string) (out : geminiService.ServiceOutcome)
  : geminiService.Env :=
  {| geminiService.API_KEY := key;
     geminiService.generateContent := fun _ => out;
     geminiService.toLocaleTimeString := "12:00:00";
     geminiService.dateNow := 1700000000000 |}.

Definition answer (fields : list (string * JSValue)) : geminiService.ServiceOutcome :=
  geminiService.CallReturns (geminiService.Parsed (JObject (list_to_map fields))).

Definition failure (msg : string) : geminiService.ServiceOutcome :=
  geminiService.CallThrows (newError msg).

Definition running : CameraFeed.Closure :=
  {| CameraFeed.isAnalyzing := true;
     CameraFeed.streamActive := true;
     CameraFeed.intervalMs := App.intervalMs |}.

Definition cycle (key : option string) (out : geminiService.ServiceOutcome)
  : CameraFeed.Cycle :=
  {| CameraFeed.domReady := true;
     CameraFeed.frame := inr "AAAA"%string;
     CameraFeed.service := env key out;
     CameraFeed.isMounted := true;
     CameraFeed.catchNow := 1700000000500 |}.

Definition world : CameraFeed.World :=
  {| CameraFeed.app := App.toggleAnalysis App.initial;
     CameraFeed.feed := CameraFeed.setIsStreamActive true CameraFeed.initial |}.

Definition history50 : list TrafficAnalysisResult :=
  map (fun i => result (Z.of_nat i)) (seq 0 50).

Definition full : App.State :=
  {| App.isAnalyzing := true; App.history := history50;
     App.latestResult := Some (result 49); App.error := None |}.

Definition runningTsx : CameraFeedTsx.Closure :=
  {| CameraFeedTsx.isAnalyzing := true;
     CameraFeedTsx.streamActive := true;
     CameraFeedTsx.intervalMs := App.intervalMs |}.

Definition cycleTsx (key : option string) (out : geminiService.ServiceOutcome)
  : CameraFeedTsx.Cycle :=
  {| CameraFeedTsx.domReady := true;
     CameraFeedTsx.frame := inr "AAAA"%string;
     CameraFeedTsx.service := env key out;
     CameraFeedTsx.isMounted := true |}.

Definition worldTsx : CameraFeedTsx.World :=
  {| CameraFeedTsx.app := App.toggleAnalysis App.initial;
     CameraFeedTsx.feed :=
       {| CameraFeedTsx.errorCountRef := 0; CameraFeedTsx.isStreamActive := true;
          CameraFeedTsx.permissionDenied := false;
          CameraFeedTsx.detectedBoxes := JArray [];
          CameraFeedTsx.isRateLimited := false |} |}.

End Sample.

(** ** components/AnalysisChart *)

Module AnalysisChart.

(** [ChartDataPoint] of [types.ts]; the count is whatever the result holds. *)
Record ChartDataPoint : Type := {
  time : string;
  count : JSValue;
  level : Z
}.

(** [x === CongestionLevel.HIGH ? 3 : x === CongestionLevel.MEDIUM ? 2 : 1] *)
Definition levelOf (congestion : JSValue) : Z :=
  match congestion with
  | JString s =>
      if String.eqb s "High" then 3%Z
      else if String.eqb s "Medium" then 2%Z
      else 1%Z
  | _ => 1%Z
  end.

Definition point (item : TrafficAnalysisResult) : ChartDataPoint :=
  {| time := timestamp item;
     count := vehicleCount item;
     level := levelOf (congestionLevel item) |}.

(** [history.slice(-20).map(...)] *)
Definition data (history : list TrafficAnalysisResult) : list ChartDataPoint :=
  map point (App.sliceLast 20 history).

(** [history.length === 0]: the placeholder is shown instead of the chart. *)
Definition waiting (history : list TrafficAnalysisResult) : bool :=
  Nat.eqb (length history) 0.

End AnalysisChart.

(** ** App.tsx, what the page shows *)

Module AppView.

(** [level === CongestionLevel.X], for the enum member whose string is [name]. *)
Definition levelIs (level : JSValue) (name : string) : bool :=
  match level with
  | JString s => String.eqb s name
  | _ => false
  end.

Definition getCongestionColor (level : JSValue) : string :=
  if levelIs level "Low" then "text-emerald-400"
  else if levelIs level "Medium" then "text-amber-400"
  else if levelIs level "High" then "text-red-500"
  else "text-slate-400".

Definition getCongestionBg (level : JSValue) : string :=
  if levelIs level "Low" then "bg-emerald-500/10 border-emerald-500/20"
  else if levelIs level "Medium" then "bg-amber-500/10 border-amber-500/20"
  else if levelIs level "High" then "bg-red-500/10 border-red-500/20"
  else "bg-slate-800/50 border-slate-700".

(** The class of the level bar. *)
Definition barClass (level : JSValue) : string :=
  if levelIs level "High" then "bg-red-500 w-full"
  else if levelIs level "Medium" then "bg-amber-400 w-2/3"
  else if levelIs level "Low" then "bg-emerald-400 w-1/3"
  else "w-0".

(** [latestResult?.congestionLevel] *)
Definition latestLevel (s : App.State) : JSValue :=
  match App.latestResult s with
  | Some r => congestionLevel r
  | None => JUndefined
  end.

(** The counts of a history all of whose [vehicleCount] are numbers. *)
Definition numericCounts (history : list TrafficAnalysisResult) : option (list Q) :=
  mapM (fun h => match vehicleCount h with JNumber q => Some q | _ => None end) history.

(** [Math.max(...counts, 0)] on numbers. *)
Definition peakCount (counts : list Q) : Q := foldr Qmax 0%Q counts.

(** The results handed to [handleAnalysisComplete] by a sequence of events. *)
Definition appended (es : list App.Event) : list TrafficAnalysisResult :=
  omap (fun e => match e with App.AnalysisComplete r => Some r | _ => None end) es.

End AppView.

(** ** components/CameraFeed, the video source *)

Module VideoSource.

Import CameraFeed.

Inductive Kind : Type := webcam | url.

(** The [<video>] element: the attached [MediaStream], given by its tracks,
    and the [src] attribute. *)
Record Element : Type := {
  srcObject : option (list nat);
  src : string
}.

(** The component with its source settings, the element behind [videoRef]
    (absent before mount and after unmount) and the tracks of the capture
    device that have been started and not stopped. *)
Record State : Type := {
  world : World;
  sourceType : Kind;
  urlInput : string;
  activeUrl : string;
  showSettings : bool;
  video : option Element;
  liveTracks : gset nat
}.

Definition withWorld (f : World -> World) (st : State) : State :=
  {| world := f (world st); sourceType := sourceType st; urlInput := urlInput st;
     activeUrl := activeUrl st; showSettings := showSettings st;
     video := video st; liveTracks := liveTracks st |}.

Definition withSourceType (k : Kind) (st : State) : State :=
  {| world := world st; sourceType := k; urlInput := urlInput st;
     activeUrl := activeUrl st; showSettings := showSettings st;
     video := video st; liveTracks := liveTracks st |}.

Definition withUrlInput (u : string) (st : State) : State :=
  {| world := world st; sourceType := sourceType st; urlInput := u;
     activeUrl := activeUrl st; showSettings := showSettings st;
     video := video st; liveTracks := liveTracks st |}.

Definition withActiveUrl (u : string) (st : State) : State :=
  {| world := world st; sourceType := sourceType st; urlInput := urlInput st;
     activeUrl := u; showSettings := showSettings st;
     video := video st; liveTracks := liveTracks st |}.

Definition withShowSettings (b : bool) (st : State) : State :=
  {| world := world st; sourceType := sourceType st; urlInput := urlInput st;
     activeUrl := activeUrl st; showSettings := b;
     video := video st; liveTracks := liveTracks st |}.

Definition withVideo (v : option Element) (st : State) : State :=
  {| world := world st; sourceType := sourceType st; urlInput := urlInput st;
     activeUrl := activeUrl st; showSettings := showSettings st;
     video := v; liveTracks := liveTracks st |}.

Definition withLiveTracks (l : gset nat) (st : State) : State :=
  {| world := world st; sourceType := sourceType st; urlInput := urlInput st;
     activeUrl := activeUrl st; showSettings := showSettings st;
     video := video st; liveTracks := l |}.

(** The component once mounted: the webcam is the initial source. *)
Definition mounted (app : App.State) : State :=
  {| world := {| CameraFeed.app := app; feed := CameraFeed.initial |};
     sourceType := webcam; urlInput := EmptyString; activeUrl := EmptyString;
     showSettings := false;
     video := Some {| srcObject := None; src := EmptyString |};
     liveTracks := ∅ |}.

(** [stream.getTracks().forEach(track => track.stop())] on the attached
    stream, as the cleanup of the switch effect does: [srcObject] stays. *)
Definition stopAttached (st : State) : State :=
  match video st with
  | Some v =>
      match srcObject v with
      | Some tracks => withLiveTracks (liveTracks st ∖ list_to_set tracks) st
      | None => st
      end
  | None => st
  end.

(** The same followed by [srcObject = null], as both starters do. *)
Definition releaseAttached (st : State) : State :=
  match video st with
  | Some v =>
      match srcObject v with
      | Some tracks =>
          withVideo (Some {| srcObject := None; src := src v |})
            (withLiveTracks (liveTracks st ∖ list_to_set tracks) st)
      | None => st
      end
  | None => st
  end.

(** [startCamera], given what [getUserMedia] answers: an error, or a stream
    whose tracks are running. *)
Definition startCamera (gum : JsError + list nat) (st : State) : State :=
  let st1 := releaseAttached st in
  match gum with
  | inr stream =>
      let st2 := withLiveTracks (liveTracks st1 ∪ list_to_set stream) st1 in
      match video st2 with
      | Some v =>
          withWorld
            (onFeed (fun s => setPermissionErrorMsg EmptyString
                                (setPermissionDenied false
                                   (setIsStreamActive true s))))
            (withVideo (Some {| srcObject := Some stream; src := EmptyString |}) st2)
      | None => st2
      end
  | inl err => withWorld (startCameraFailed err) st1
  end.

Definition urlErrorMessage : string :=
  "Could not play video from URL. Check format or CORS.".

(** [startUrlStream], given whether [play()] resolves or rejects. *)
Definition startUrlStream (play : option JsError) (st : State) : State :=
  if String.eqb (activeUrl st) EmptyString then st
  else
    match video st with
    | None => st
    | Some _ =>
        let st1 := releaseAttached st in
        let st2 := withVideo (Some {| srcObject := None; src := activeUrl st |}) st1 in
        match play with
        | None =>
            withWorld
              (onFeed (fun s => setPermissionDenied false (setIsStreamActive true s)))
              st2
        | Some _ =>
            withWorld
              (fun w => onApp (App.handleError urlErrorMessage)
                          (onFeed (setIsStreamActive false) w))
              st2
        end
    end.

(** The body of the switch effect. *)
Definition switchEffect (gum : JsError + list nat) (play : option JsError)
  (st : State) : State :=
  let st0 := withWorld
               (onFeed (fun s => setDetectedBoxes (JArray [])
                                   (setIsStreamActive false s))) st in
  match sourceType st0 with
  | webcam => startCamera gum st0
  | url => startUrlStream play st0
  end.

(** A change of [sourceType] or [activeUrl]: the cleanup of the previous
    effect, then the effect again. *)
Definition reswitch (gum : JsError + list nat) (play : option JsError)
  (st : State) : State :=
  switchEffect gum play (stopAttached st).

Definition kind_eqb (a b : Kind) : bool :=
  match a, b with
  | webcam, webcam | url, url => true
  | _, _ => false
  end.

(** [setSourceType(k)]: nothing happens when the source is [k] already. *)
Definition setSourceType (k : Kind) (gum : JsError + list nat)
  (play : option JsError) (st : State) : State :=
  if kind_eqb k (sourceType st) then st
  else reswitch gum play (withSourceType k st).

Definition handleUrlSubmit (st : State) : State :=
  if String.eqb (urlInput st) EmptyString then st
  else withShowSettings false (withActiveUrl (urlInput st) st).

(** The form's submit: the effect runs again only when [activeUrl] changed. *)
Definition submitUrl (gum : JsError + list nat) (play : option JsError)
  (st : State) : State :=
  let st' := handleUrlSubmit st in
  if String.eqb (activeUrl st') (activeUrl st) then st'
  else reswitch gum play st'.

(** The "Retry Access" button, rendered while [permissionDenied]. *)
Definition retryAccess (gum : JsError + list nat) (st : State) : State :=
  if permissionDenied (feed (world st))
  then startCamera gum (withWorld (onFeed (setPermissionDenied false)) st)
  else st.

(** The "use a Video URL instead" link, rendered while [permissionDenied]. *)
Definition useUrlInstead (gum : JsError + list nat) (play : option JsError)
  (st : State) : State :=
  if permissionDenied (feed (world st))
  then setSourceType url gum play
         (withWorld (onFeed (setPermissionDenied false)) st)
  else st.

(** What the user and the browser can do to the source. *)
Inductive Event : Type :=
| Mount (gum : JsError + list nat) (play : option JsError)
| SetSourceType (k : Kind) (gum : JsError + list nat) (play : option JsError)
| TypeUrl (u : string)
| SubmitUrl (gum : JsError + list nat) (play : option JsError)
| RetryAccess (gum : JsError + list nat)
| UseUrlInstead (gum : JsError + list nat) (play : option JsError)
| ToggleSettings.

Definition step (st : State) (e : Event) : State :=
  match e with
  | Mount gum play => switchEffect gum play st
  | SetSourceType k gum play => setSourceType k gum play st
  | TypeUrl u => withUrlInput u st
  | SubmitUrl gum play => submitUrl gum play st
  | RetryAccess gum => retryAccess gum st
  | UseUrlInstead gum play => useUrlInstead gum play st
  | ToggleSettings => withShowSettings (negb (showSettings st)) st
  end.

Definition run (st : State) (es : list Event) : State := foldl step st es.

(** Every running track belongs to the stream attached to the element. *)
Definition attached (st : State) : Prop :=
  forall t, t ∈ liveTracks st ->
    exists v tracks, video st = Some v /\ srcObject v = Some tracks /\ t ∈ tracks.

End VideoSource.

(** ** Successive calls of the loop *)

Module Trace.

Import CameraFeed.

(** The calls of [loop] made by one effect instance, each with the clock
    reading at its entry and what the environment answers. *)
Fixpoint runLoop (c : Closure) (calls : list (Z * Cycle)) (w : World) : World :=
  match calls with
  | [] => w
  | (now, cy) :: rest => runLoop c rest (loop c now cy w).1
  end.

(** The delay each call re-armed the loop with. *)
Fixpoint timers (c : Closure) (calls : list (Z * Cycle)) (w : World)
  : list (option Q) :=
  match calls with
  | [] => []
  | (now, cy) :: rest => (loop c now cy w).2 :: timers c rest (loop c now cy w).1
  end.

(** The branch each call took. *)
Fixpoint branches (c : Closure) (calls : list (Z * Cycle)) (w : World)
  : list Branch :=
  match calls with
  | [] => []
  | (now, cy) :: rest => branch c now cy w :: branches c rest (loop c now cy w).1
  end.

(** A call that gets as far as handing the image [img] to the analyzer, in
    an effect that is still current when the answer comes. *)
Definition reachesAnalyzer (c : Closure) (now : Z) (cy : Cycle) (w : World)
  (img : string) : Prop :=
  isAnalyzing c = true
  /\ streamActive c = true
  /\ mustWait now (feed w) = false
  /\ domReady cy = true
  /\ isMounted cy = true
  /\ frame cy = inr img.

End Trace.

(** ** The two revisions of the component side by side *)

Module Revisions.

(** What the earlier revision has of the later one's state: everything but
    the retry instant, the countdown and the message of the denied overlay. *)
Definition eraseState (s : CameraFeed.State) : CameraFeedTsx.State :=
  {| CameraFeedTsx.errorCountRef := CameraFeed.errorCountRef s;
     CameraFeedTsx.isStreamActive := CameraFeed.isStreamActive s;
     CameraFeedTsx.permissionDenied := CameraFeed.permissionDenied s;
     CameraFeedTsx.detectedBoxes := CameraFeed.detectedBoxes s;
     CameraFeedTsx.isRateLimited := CameraFeed.isRateLimited s |}.

Definition eraseWorld (w : CameraFeed.World) : CameraFeedTsx.World :=
  {| CameraFeedTsx.app := CameraFeed.app w;
     CameraFeedTsx.feed := eraseState (CameraFeed.feed w) |}.

Definition eraseClosure (c : CameraFeed.Closure) : CameraFeedTsx.Closure :=
  {| CameraFeedTsx.isAnalyzing := CameraFeed.isAnalyzing c;
     CameraFeedTsx.streamActive := CameraFeed.streamActive c;
     CameraFeedTsx.intervalMs := CameraFeed.intervalMs c |}.

Definition eraseCycle (cy : CameraFeed.Cycle) : CameraFeedTsx.Cycle :=
  {| CameraFeedTsx.domReady := CameraFeed.domReady cy;
     CameraFeedTsx.frame := CameraFeed.frame cy;
     CameraFeedTsx.service := CameraFeed.service cy;
     CameraFeedTsx.isMounted := CameraFeed.isMounted cy |}.

Definition eraseBranch (b : CameraFeed.Branch) : CameraFeedTsx.Branch :=
  match b with
  | CameraFeed.Idle | CameraFeed.Waiting => CameraFeedTsx.Idle
  | CameraFeed.Cancelled => CameraFeedTsx.Cancelled
  | CameraFeed.Completed => CameraFeedTsx.Completed
  | CameraFeed.QuotaFailure => CameraFeedTsx.QuotaFailure
  | CameraFeed.TransientFailure => CameraFeedTsx.TransientFailure
  end.

End Revisions.

(** * The history buffer and the latest result ([App.tsx]) *)

Section History.

Context {A : Type}.
Implicit Types (xs : list A) (x : A).

Lemma sliceLast_length n xs : length (App.sliceLast n xs) = min n (length xs).
Proof. unfold App.sliceLast. rewrite length_drop. lia. Qed.

Lemma sliceLast_snoc n xs x :
  0 < n -> App.sliceLast n (xs ++ [x]) = drop (length xs + 1 - n) xs ++ [x].
Proof.
  intros Hn. unfold App.sliceLast. rewrite length_app. simpl.
  apply drop_app_le. lia.
Qed.

Lemma sliceLast_snoc_last n xs x :
  0 < n -> last (App.sliceLast n (xs ++ [x])) = Some x.
Proof. intros Hn. rewrite sliceLast_snoc by exact Hn. apply last_snoc. Qed.

End History.

Lemma handleAnalysisComplete_history result s :
  App.history (App.handleAnalysisComplete result s)
  = drop (length (App.history s) + 1 - 50) (App.history s) ++ [result].
Proof. unfold App.handleAnalysisComplete. simpl. apply sliceLast_snoc. lia. Qed.

Lemma step_history_length s e :
  length (App.history s) <= 50 -> length (App.history (App.step s e)) <= 50.
Proof.
  intros Hs. destruct e; simpl; try exact Hs.
  rewrite sliceLast_length. lia.
Qed.

Lemma run_history_length es : forall s,
  length (App.history s) <= 50 -> length (App.history (App.run s es)) <= 50.
Proof.
  induction es as [|e es IH]; intros s Hs; simpl.
  - exact Hs.
  - apply IH, step_history_length, Hs.
Qed.

Lemma step_latestIsLast s e : App.latestIsLast s -> App.latestIsLast (App.step s e).
Proof.
  unfold App.latestIsLast. intros Hs. destruct e; simpl; try exact Hs.
  symmetry. apply sliceLast_snoc_last. lia.
Qed.

Lemma run_latestIsLast es : forall s, App.latestIsLast s -> App.latestIsLast (App.run s es).
Proof.
  induction es as [|e es IH]; intros s Hs; simpl.
  - exact Hs.
  - apply IH, step_latestIsLast, Hs.
Qed.

(** A full buffer, results 0 to 49: appending result 50 leaves 1 to 50. *)
Example history_full_evicts_oldest :
  length (App.history Sample.full) = 50
  /\ App.history (App.handleAnalysisComplete (Sample.result 50) Sample.full)
     = map (fun i => Sample.result (Z.of_nat i)) (seq 1 50).
Proof. split; vm_compute; reflexivity. Qed.

(** C3.  Whatever happens to the application from its initial state, the
    history holds at most 50 results; a further result is appended at the
    end, and when the buffer is full (50 entries) exactly the oldest, first
    entry is dropped, the other 49 keeping their order before the new one. *)
Theorem history_capped_fifo (es : list App.Event) (result : TrafficAnalysisResult) :
  let s := App.run App.initial es in
  let s' := App.handleAnalysisComplete result s in
  length (App.history s) <= 50
  /\ length (App.history s') <= 50
  /\ App.history s'
     = (if decide (length (App.history s) = 50)
        then drop 1 (App.history s)
        else App.history s) ++ [result].
Proof.
  intros s s'.
  assert (Hs : length (App.history s) <= 50)
    by (apply run_history_length; simpl; lia).
  split; [exact Hs|]. split.
  - apply (step_history_length s (App.AnalysisComplete result)), Hs.
  - subst s'. rewrite handleAnalysisComplete_history.
    destruct (decide (length (App.history s) = 50)) as [->|Hne].
    + reflexivity.
    + replace (length (App.history s) + 1 - 50) with 0 by lia. reflexivity.
Qed.

(** C10.  In every state the application reaches, [latestResult] is the last
    element of [history], and is null exactly when the history is empty;
    [handleAnalysisComplete] sets the one and appends to the other in the
    same update, so the new result is both. *)
Theorem latest_result_is_last_of_history
  (es : list App.Event) (result : TrafficAnalysisResult) :
  let s := App.run App.initial es in
  let s' := App.handleAnalysisComplete result s in
  App.latestResult s = last (App.history s)
  /\ (App.history s = [] <-> App.latestResult s = None)
  /\ App.latestResult s' = Some result
  /\ last (App.history s') = Some result.
Proof.
  intros s s'.
  assert (Hs : App.latestIsLast s) by (apply run_latestIsLast; reflexivity).
  unfold App.latestIsLast in Hs. split; [exact Hs|]. split; [|split].
  - rewrite Hs. symmetry. apply last_None.
  - reflexivity.
  - apply sliceLast_snoc_last. lia.
Qed.

(** * The scheduler loop ([components/CameraFeed]) *)

Section Loop.

Import CameraFeed.
Local Open Scope Q_scope.

Implicit Types (c : Closure) (cy : Cycle) (w : World) (s : State) (now : Z).

(** [captureAndAnalyze] never writes the two refs of the backoff policy. *)
Lemma captureAndAnalyze_refs c cy w :
  errorCountRef (feed (captureAndAnalyze c cy w).1) = errorCountRef (feed w)
  /\ nextRetryTimeRef (feed (captureAndAnalyze c cy w).1) = nextRetryTimeRef (feed w).
Proof. unfold captureAndAnalyze. repeat case_match; simpl; auto. Qed.

(** When it rethrows, it has changed nothing. *)
Lemma captureAndAnalyze_throws c cy w err :
  (captureAndAnalyze c cy w).2 = Some err -> (captureAndAnalyze c cy w).1 = w.
Proof. unfold captureAndAnalyze. repeat case_match; simpl; congruence. Qed.

Lemma loop_Completed c now cy w :
  branch c now cy w = Completed ->
  loop c now cy w
  = (onFeed (fun s => setIsRateLimited false (setErrorCount 0 s))
       (captureAndAnalyze c cy w).1,
     Some (intervalMs c)).
Proof.
  unfold branch, loop.
  destruct (negb (isAnalyzing c) || negb (streamActive c))%bool; [discriminate|].
  destruct (mustWait now (feed w)); [discriminate|].
  destruct (isMounted cy && isAnalyzing c)%bool; [|discriminate]. simpl.
  destruct (captureAndAnalyze c cy w) as [w1 [err|]]; simpl.
  - destruct (isQuota err); discriminate.
  - reflexivity.
Qed.

Lemma loop_QuotaFailure c now cy w :
  branch c now cy w = QuotaFailure ->
  loop c now cy w
  = ({| app := app w; feed := (onQuota (catchNow cy) (feed w)).1 |},
     Some (backoffMs (errorCountRef (feed w) + 1))).
Proof.
  unfold branch, loop.
  destruct (negb (isAnalyzing c) || negb (streamActive c))%bool; [discriminate|].
  destruct (mustWait now (feed w)); [discriminate|].
  destruct (isMounted cy && isAnalyzing c)%bool; [|discriminate]. simpl.
  pose proof (captureAndAnalyze_throws c cy w) as Hw.
  destruct (captureAndAnalyze c cy w) as [w1 [err|]]; simpl in *; [|discriminate].
  rewrite (Hw err eq_refl).
  destruct (isQuota err); [reflexivity|discriminate].
Qed.

Lemma loop_TransientFailure c now cy w :
  branch c now cy w = TransientFailure ->
  loop c now cy w = (w, Some (intervalMs c * 1.5)).
Proof.
  unfold branch, loop.
  destruct (negb (isAnalyzing c) || negb (streamActive c))%bool; [discriminate|].
  destruct (mustWait now (feed w)); [discriminate|].
  destruct (isMounted cy && isAnalyzing c)%bool; [|discriminate]. simpl.
  pose proof (captureAndAnalyze_throws c cy w) as Hw.
  destruct (captureAndAnalyze c cy w) as [w1 [err|]]; simpl in *; [|discriminate].
  rewrite (Hw err eq_refl).
  destruct (isQuota err); [discriminate|reflexivity].
Qed.

Lemma loop_Cancelled c now cy w :
  branch c now cy w = Cancelled ->
  loop c now cy w = ((captureAndAnalyze c cy w).1, None).
Proof.
  unfold branch, loop.
  destruct (negb (isAnalyzing c) || negb (streamActive c))%bool; [discriminate|].
  destruct (mustWait now (feed w)); [discriminate|].
  destruct (isMounted cy && isAnalyzing c)%bool; simpl.
  - destruct (captureAndAnalyze c cy w) as [w1 [err|]]; simpl;
      [destruct (isQuota err)|]; discriminate.
  - destruct (captureAndAnalyze c cy w) as [w1 [err|]]; reflexivity.
Qed.

Lemma loop_Waiting c now cy w :
  branch c now cy w = Waiting -> loop c now cy w = (w, Some 1000).
Proof.
  unfold branch, loop.
  destruct (negb (isAnalyzing c) || negb (streamActive c))%bool; [discriminate|].
  destruct (mustWait now (feed w)); [reflexivity|].
  destruct (negb (isMounted cy && isAnalyzing c)); [discriminate|].
  destruct ((captureAndAnalyze c cy w).2) as [err|];
    [destruct (isQuota err)|]; discriminate.
Qed.

Lemma loop_Idle c now cy w :
  branch c now cy w = Idle -> loop c now cy w = (w, None).
Proof.
  unfold branch, loop.
  destruct (negb (isAnalyzing c) || negb (streamActive c))%bool; [reflexivity|].
  destruct (mustWait now (feed w)); [discriminate|].
  destruct (negb (isMounted cy && isAnalyzing c)); [discriminate|].
  destruct ((captureAndAnalyze c cy w).2) as [err|];
    [destruct (isQuota err)|]; discriminate.
Qed.

(** A call that got past the eligibility check found the retry instant
    already reached. *)
Lemma mustWait_false now s :
  mustWait now s = false <-> nextRetryTimeRef s <= inject_Z now.
Proof.
  unfold mustWait. rewrite negb_false_iff. apply Qle_bool_iff.
Qed.

End Loop.

(** * The same loop in [src/components/CameraFeed.tsx] *)

Section LoopTsx.

Import CameraFeedTsx.
Local Open Scope Q_scope.

Implicit Types (c : Closure) (cy : Cycle) (w : World) (s : State).

Lemma tsx_captureAndAnalyze_throws c cy w err :
  (captureAndAnalyze c cy w).2 = Some err -> (captureAndAnalyze c cy w).1 = w.
Proof. unfold captureAndAnalyze. repeat case_match; simpl; congruence. Qed.



Lemma tsx_loop_TransientFailure c cy w :
  branch c cy w = TransientFailure ->
  loop c cy w = (w, Some (intervalMs c * 1.5)).
Proof.
  unfold branch, loop.
  destruct (negb (isAnalyzing c) || negb (streamActive c))%bool; [discriminate|].
  destruct (isMounted cy && isAnalyzing c)%bool; [|discriminate]. simpl.
  pose proof (tsx_captureAndAnalyze_throws c cy w) as Hw.
  destruct (captureAndAnalyze c cy w) as [w1 [err|]]; simpl in *; [|discriminate].
  rewrite (Hw err eq_refl).
  destruct (isQuota err); [discriminate|reflexivity].
Qed.

End LoopTsx.

(** * The capped doubling [min(F * 2^(n-1), C)] *)

Section Capped.

Local Open Scope Q_scope.

Variables F C : Q.
Hypothesis F_pos : 0 < F.

Lemma pow2_pos (z : Z) : 0 < 2 ^ z.
Proof. apply Qpower_0_lt. reflexivity. Qed.



Lemma capped_term_pos (n : nat) : 0 < F * 2 ^ (Z.of_nat n - 1).
Proof.
  pose proof (pow2_pos (Z.of_nat n - 1)) as Hp.
  apply Qmult_lt_0_compat; assumption.
Qed.







End Capped.

Lemma backoffMs_pos (n : nat) : (0 < CameraFeed.backoffMs n)%Q.
Proof.
  unfold CameraFeed.backoffMs. apply Q.min_glb_lt.
  - apply capped_term_pos. reflexivity.
  - reflexivity.
Qed.

(** * Properties of the scheduler *)

Section Scheduler.

Local Open Scope Q_scope.





(** C5.  Whatever the state, a backoff wait included, the manual override
    ([handleForceRetry]) puts the failure counter and the retry instant back
    to 0 and clears the rate-limited flag at once; at any clock reading
    since the epoch the eligibility check of the loop then passes, so a call
    of [loop] on that state never takes the re-poll branch. *)
Theorem manual_override_clears_backoff (s : CameraFeed.State) (now : Z) :
  (0 <= now)%Z ->
  let s' := CameraFeed.handleForceRetry s in
  CameraFeed.errorCountRef s' = 0%nat
  /\ CameraFeed.nextRetryTimeRef s' = 0
  /\ CameraFeed.isRateLimited s' = false
  /\ CameraFeed.mustWait now s' = false
  /\ forall c cy w, CameraFeed.feed w = s' ->
       CameraFeed.branch c now cy w <> CameraFeed.Waiting.
Proof.
  intros Hnow s'.
  assert (Hw : CameraFeed.mustWait now s' = false).
  { apply mustWait_false. simpl. unfold Qle. simpl. lia. }
  repeat split; try reflexivity; try exact Hw.
  intros c cy w Hfeed. unfold CameraFeed.branch. rewrite Hfeed, Hw.
  repeat case_match; discriminate.
Qed.

(** C5, on a sample: 10 s into a two-minute backoff the loop must wait;
    after the override it need not. *)
Lemma manual_override_clears_backoff_witness :
  let s := CameraFeed.setIsRateLimited true
             (CameraFeed.setNextRetryTime 1700000120000
                (CameraFeed.setErrorCount 5 (CameraFeed.feed Sample.world))) in
  CameraFeed.mustWait 1700000010000 s = true
  /\ CameraFeed.errorCountRef (CameraFeed.handleForceRetry s) = 0%nat
  /\ CameraFeed.nextRetryTimeRef (CameraFeed.handleForceRetry s) = 0
  /\ CameraFeed.mustWait 1700000010000 (CameraFeed.handleForceRetry s) = false.
Proof.
  intros s.
  assert (Hnow : (0 <= 1700000010000)%Z) by lia.
  destruct (manual_override_clears_backoff s 1700000010000%Z Hnow)
    as (Hcount & Hnext & _ & Hwait & _).
  split; [reflexivity|]. split; [exact Hcount|]. split; [exact Hnext|exact Hwait].
Defined.

(** C6.  A cycle that fails with an error carrying no quota marker, in a
    loop that is still current, changes nothing in the state and re-arms the
    loop after [intervalMs * 1.5]: a counter at 0 stays at 0 and a false
    rate-limited flag stays false.  This holds in both revisions. *)
Theorem transient_failure_slows_retry :
  (forall c now cy w,
      CameraFeed.branch c now cy w = CameraFeed.TransientFailure ->
      CameraFeed.errorCountRef (CameraFeed.feed w) = 0%nat ->
      CameraFeed.isRateLimited (CameraFeed.feed w) = false ->
      let r := CameraFeed.loop c now cy w in
      r.2 = Some (CameraFeed.intervalMs c * 1.5)
      /\ CameraFeed.intervalMs c * 1.5 == (3 # 2) * CameraFeed.intervalMs c
      /\ r.1 = w
      /\ CameraFeed.errorCountRef (CameraFeed.feed r.1) = 0%nat
      /\ CameraFeed.isRateLimited (CameraFeed.feed r.1) = false)
  /\ (forall c cy w,
      CameraFeedTsx.branch c cy w = CameraFeedTsx.TransientFailure ->
      CameraFeedTsx.errorCountRef (CameraFeedTsx.feed w) = 0%nat ->
      CameraFeedTsx.isRateLimited (CameraFeedTsx.feed w) = false ->
      let r := CameraFeedTsx.loop c cy w in
      r.2 = Some (CameraFeedTsx.intervalMs c * 1.5)
      /\ CameraFeedTsx.intervalMs c * 1.5 == (3 # 2) * CameraFeedTsx.intervalMs c
      /\ r.1 = w
      /\ CameraFeedTsx.errorCountRef (CameraFeedTsx.feed r.1) = 0%nat
      /\ CameraFeedTsx.isRateLimited (CameraFeedTsx.feed r.1) = false).
Proof.
  split.
  - intros c now cy w Hb Hcount Hflag r. subst r.
    rewrite (loop_TransientFailure _ _ _ _ Hb). simpl.
    repeat split; try assumption. field.
  - intros c cy w Hb Hcount Hflag r. subst r.
    rewrite (tsx_loop_TransientFailure _ _ _ Hb). simpl.
    repeat split; try assumption. field.
Qed.

(** C6, on a sample: the service fails once with a message no marker
    matches, under the 20 s interval of [App.tsx]; the retry comes 30 s
    later, in both revisions. *)
Lemma transient_failure_slows_retry_witness :
  let cy := Sample.cycle (Some "key"%string) (Sample.failure "network down") in
  let cyTsx := Sample.cycleTsx (Some "key"%string) (Sample.failure "network down") in
  (exists d, (CameraFeed.loop Sample.running 1700000000000 cy Sample.world).2 = Some d
             /\ d == 30000)
  /\ CameraFeed.errorCountRef
       (CameraFeed.feed (CameraFeed.loop Sample.running 1700000000000 cy Sample.world).1)
     = 0%nat
  /\ CameraFeed.isRateLimited
       (CameraFeed.feed (CameraFeed.loop Sample.running 1700000000000 cy Sample.world).1)
     = false
  /\ (exists d, (CameraFeedTsx.loop Sample.runningTsx cyTsx Sample.worldTsx).2 = Some d
                /\ d == 30000).
Proof.
  intros cy cyTsx.
  assert (Hb : CameraFeed.branch Sample.running 1700000000000 cy Sample.world
               = CameraFeed.TransientFailure) by (vm_compute; reflexivity).
  assert (HbTsx : CameraFeedTsx.branch Sample.runningTsx cyTsx Sample.worldTsx
                  = CameraFeedTsx.TransientFailure) by (vm_compute; reflexivity).
  destruct (proj1 transient_failure_slows_retry
              Sample.running 1700000000000%Z cy Sample.world Hb eq_refl eq_refl)
    as (Hd & _ & _ & Hcount & Hflag).
  destruct (proj2 transient_failure_slows_retry
              Sample.runningTsx cyTsx Sample.worldTsx HbTsx eq_refl eq_refl)
    as (HdTsx & _).
  split; [|split; [exact Hcount|split; [exact Hflag|]]].
  - eexists. split; [exact Hd|reflexivity].
  - eexists. split; [exact HdTsx|reflexivity].
Defined.



(** Every branch but the idle and the re-poll one has passed the
    eligibility check. *)
Lemma branch_eligible c now cy w :
  CameraFeed.branch c now cy w <> CameraFeed.Idle ->
  CameraFeed.branch c now cy w <> CameraFeed.Waiting ->
  CameraFeed.mustWait now (CameraFeed.feed w) = false.
Proof.
  unfold CameraFeed.branch.
  destruct (negb (CameraFeed.isAnalyzing c) || negb (CameraFeed.streamActive c))%bool;
    [congruence|].
  destruct (CameraFeed.mustWait now (CameraFeed.feed w)); congruence.
Qed.

(** What a call of [loop] does to the retry instant: only the quota branch
    writes it, to the clock reading of the catch block plus the backoff. *)
Lemma loop_nextRetryTime c now cy w :
  CameraFeed.nextRetryTimeRef (CameraFeed.feed (CameraFeed.loop c now cy w).1)
  = match CameraFeed.branch c now cy w with
    | CameraFeed.QuotaFailure =>
        inject_Z (CameraFeed.catchNow cy)
        + CameraFeed.backoffMs (CameraFeed.errorCountRef (CameraFeed.feed w) + 1)
    | _ => CameraFeed.nextRetryTimeRef (CameraFeed.feed w)
    end.
Proof.
  destruct (CameraFeed.branch c now cy w) eqn:Hb.
  - now rewrite (loop_Idle _ _ _ _ Hb).
  - now rewrite (loop_Waiting _ _ _ _ Hb).
  - rewrite (loop_Cancelled _ _ _ _ Hb). apply captureAndAnalyze_refs.
  - rewrite (loop_Completed _ _ _ _ Hb). simpl. apply captureAndAnalyze_refs.
  - now rewrite (loop_QuotaFailure _ _ _ _ Hb).
  - now rewrite (loop_TransientFailure _ _ _ _ Hb).
Qed.

(** C9.  Across a step of the running scheduler, the retry instant
    [nextRetryTimeRef] never decreases, unless the step is the manual
    override, which resets it to 0.  A call of [loop] leaves it as it is on
    every branch (the success path included) except the quota branch, which
    moves it forward to the clock reading plus the backoff; the clock is
    taken not to run backwards between the eligibility check and the catch
    block. *)
Theorem nextRetryTime_never_decreases (s s' : CameraFeed.State) :
  CameraFeed.Step s s' ->
  CameraFeed.nextRetryTimeRef s <= CameraFeed.nextRetryTimeRef s'
  \/ (s' = CameraFeed.handleForceRetry s /\ CameraFeed.nextRetryTimeRef s' = 0).
Proof.
  intros Hstep. destruct Hstep as [c now cy w Hclock|s].
  - left. rewrite loop_nextRetryTime.
    destruct (CameraFeed.branch c now cy w) eqn:Hb; try apply Qle_refl.
    assert (Hw : CameraFeed.mustWait now (CameraFeed.feed w) = false)
      by (apply (branch_eligible c now cy w); rewrite Hb; discriminate).
    apply mustWait_false in Hw.
    pose proof (backoffMs_pos (CameraFeed.errorCountRef (CameraFeed.feed w) + 1)) as Hpos.
    assert (Hq : inject_Z now <= inject_Z (CameraFeed.catchNow cy))
      by (rewrite <- Zle_Qle; exact Hclock).
    lra.
  - right. split; reflexivity.
Qed.

(** C9, on a sample: a first quota failure moves the retry instant from 0
    to 10 s after the failure. *)
Lemma nextRetryTime_never_decreases_witness :
  let cy := Sample.cycle (Some "key"%string) (Sample.failure "HTTP 429") in
  let s' := CameraFeed.feed (CameraFeed.loop Sample.running 1700000000000 cy Sample.world).1 in
  CameraFeed.nextRetryTimeRef s' = 1700000010500
  /\ (CameraFeed.nextRetryTimeRef (CameraFeed.feed Sample.world)
      <= CameraFeed.nextRetryTimeRef s'
      \/ (s' = CameraFeed.handleForceRetry (CameraFeed.feed Sample.world)
          /\ CameraFeed.nextRetryTimeRef s' = 0)).
Proof.
  intros cy s'. split; [vm_compute; reflexivity|].
  assert (Hclock : (1700000000000 <= CameraFeed.catchNow cy)%Z)
    by (vm_compute; discriminate).
  exact (nextRetryTime_never_decreases _ _
           (CameraFeed.StepLoop Sample.running 1700000000000%Z cy Sample.world Hclock)).
Defined.

End Scheduler.

(** * The analyzer client ([services/geminiService]) *)

Section Analyzer.

Import geminiService.


(** An accepted answer came out of the [try] block. *)
Lemma analyzeTrafficFrame_accepts env img r :
  analyzeTrafficFrame env img = inr r -> tryBody env img = inr r.
Proof.
  unfold analyzeTrafficFrame.
  destruct (API_KEY env) as [[|a k]|]; [discriminate| |discriminate].
  destruct (tryBody env img) as [e|r']; [|congruence].
  destruct (quotaMarker _); discriminate.
Qed.

(** The analyzer never turns down a parsed JSON object. *)
Lemma analyzeTrafficFrame_object env img a k fields :
  API_KEY env = Some (String a k) ->
  generateContent env img = CallReturns (Parsed (JObject fields)) ->
  analyzeTrafficFrame env img
  = inr {| vehicleCount := default JUndefined (fields !! "vehicleCount"%string);
           congestionLevel := default JUndefined (fields !! "congestionLevel"%string);
           description := default JUndefined (fields !! "description"%string);
           detectedObjects :=
             js_or (default JUndefined (fields !! "detectedObjects"%string)) (JArray []);
           timestamp := toLocaleTimeString env;
           processedAt := dateNow env |}.
Proof.
  intros Hkey Hcall. unfold analyzeTrafficFrame, tryBody.
  rewrite Hkey, Hcall. reflexivity.
Qed.

(** C8, as the code has it.  Whenever the analyzer accepts an answer, the
    answer parsed as JSON and every field of the result but
    [detectedObjects] is the member of that name read from the parsed
    value, as it is: no check and no conversion, and [undefined] when the
    member is missing.  [detectedObjects] alone is defaulted: a missing
    (or otherwise falsy) member gives the empty array. *)
Theorem analyzer_defaults_only_detectedObjects
  (env : Env) (img : string) (r : TrafficAnalysisResult) :
  analyzeTrafficFrame env img = inr r ->
  exists json objs,
    generateContent env img = CallReturns (Parsed json)
    /\ getProp json "vehicleCount" = inr (vehicleCount r)
    /\ getProp json "congestionLevel" = inr (congestionLevel r)
    /\ getProp json "description" = inr (description r)
    /\ getProp json "detectedObjects" = inr objs
    /\ detectedObjects r = (if truthy objs then objs else JArray [])
    /\ (forall fields, json = JObject fields ->
          fields !! "detectedObjects"%string = None ->
          detectedObjects r = JArray [])
    /\ (forall fields, json = JObject fields ->
          fields !! "vehicleCount"%string = None ->
          vehicleCount r = JUndefined).
Proof.
  intros Hacc. apply analyzeTrafficFrame_accepts in Hacc.
  unfold tryBody in Hacc.
  destruct (generateContent env img) as [e|[|e|json]]; try discriminate.
  destruct (getProp json "vehicleCount") as [e1|vc] eqn:Hvc;
    [repeat case_match; discriminate|].
  destruct (getProp json "congestionLevel") as [e2|cl] eqn:Hcl;
    [repeat case_match; discriminate|].
  destruct (getProp json "description") as [e3|d] eqn:Hd;
    [repeat case_match; discriminate|].
  destruct (getProp json "detectedObjects") as [e4|objs] eqn:Hobjs;
    [discriminate|].
  injection Hacc as <-. simpl.
  exists json, objs.
  do 6 (split; [first [assumption|reflexivity]|]). split.
  - intros fields -> Hnone. simpl in Hobjs. rewrite Hnone in Hobjs.
    injection Hobjs as <-. reflexivity.
  - intros fields -> Hnone. simpl in Hvc. rewrite Hnone in Hvc.
    injection Hvc as <-. reflexivity.
Qed.

(** C8, on a sample: an answer with a count and a level but no
    [detectedObjects]. *)
Lemma analyzer_defaults_only_detectedObjects_witness :
  let env := Sample.env (Some "key"%string)
               (Sample.answer [("vehicleCount"%string, JNumber 5);
                               ("congestionLevel"%string, JString "Medium")]) in
  let r := {| vehicleCount := JNumber 5;
              congestionLevel := JString "Medium";
              description := JUndefined;
              detectedObjects := JArray [];
              timestamp := "12:00:00";
              processedAt := 1700000000000 |} in
  analyzeTrafficFrame env "AAAA" = inr r
  /\ exists json objs,
       generateContent env "AAAA" = CallReturns (Parsed json)
       /\ getProp json "vehicleCount" = inr (vehicleCount r)
       /\ getProp json "congestionLevel" = inr (congestionLevel r)
       /\ getProp json "description" = inr (description r)
       /\ getProp json "detectedObjects" = inr objs
       /\ detectedObjects r = (if truthy objs then objs else JArray [])
       /\ (forall fields, json = JObject fields ->
             fields !! "detectedObjects"%string = None ->
             detectedObjects r = JArray [])
       /\ (forall fields, json = JObject fields ->
             fields !! "vehicleCount"%string = None ->
             vehicleCount r = JUndefined).
Proof.
  intros env r.
  assert (Hacc : analyzeTrafficFrame env "AAAA" = inr r) by (vm_compute; reflexivity).
  split; [exact Hacc|].
  exact (analyzer_defaults_only_detectedObjects env "AAAA"%string r Hacc).
Defined.

(** C8 as stated fails: an answer that lacks [congestionLevel] and
    [description] and whose [vehicleCount] is a string is accepted, and the
    result carries the string and two [undefined] upward. *)
Lemma analyzer_accepts_partial_answer :
  let env := Sample.env (Some "key"%string)
               (Sample.answer [("vehicleCount"%string, JString "many")]) in
  let r := {| vehicleCount := JString "many";
              congestionLevel := JUndefined;
              description := JUndefined;
              detectedObjects := JArray [];
              timestamp := "12:00:00";
              processedAt := 1700000000000 |} in
  analyzeTrafficFrame env "AAAA" = inr r
  /\ wellTyped r = false
  /\ ~ (forall env' img' r',
          analyzeTrafficFrame env' img' = inr r' -> wellTyped r' = true).
Proof.
  intros env r.
  assert (Hacc : analyzeTrafficFrame env "AAAA" = inr r) by (vm_compute; reflexivity).
  split; [exact Hacc|]. split; [reflexivity|].
  intros Hall. specialize (Hall env "AAAA"%string r Hacc). discriminate Hall.
Qed.

End Analyzer.

(** * Which failures stop the loop *)

Section Propagation.

Import CameraFeed.
Local Open Scope Q_scope.




End Propagation.

(** * The end-to-end scenarios *)

Section Scenarios.

Import CameraFeed.
Local Open Scope Q_scope.

(** A cycle whose analysis succeeds in a current, eligible loop takes the
    success path, and the result reaches the application. *)
Lemma success_is_Completed c now cy w img result :
  isAnalyzing c = true ->
  streamActive c = true ->
  mustWait now (feed w) = false ->
  domReady cy = true ->
  isMounted cy = true ->
  frame cy = inr img ->
  geminiService.analyzeTrafficFrame (service cy) img = inr result ->
  branch c now cy w = Completed
  /\ app (loop c now cy w).1 = App.handleAnalysisComplete result (app w)
  /\ detectedBoxes (feed (loop c now cy w).1) = detectedObjects result.
Proof.
  intros Han Hact Hwait Hdom Hmounted Hframe Hres.
  unfold branch, loop, captureAndAnalyze.
  rewrite Han, Hact, Hwait, Hdom, Hmounted, Hframe, Hres. simpl.
  repeat split.
Qed.

(** Scenario A: five vehicles, medium congestion. *)
Example scenario_success :
  let cy := Sample.cycle (Some "key"%string)
              (Sample.answer [("vehicleCount"%string, JNumber 5);
                              ("congestionLevel"%string, JString "Medium");
                              ("description"%string, JString "Steady traffic.");
                              ("detectedObjects"%string, JArray [])]) in
  let r := loop Sample.running 1700000000000 cy Sample.world in
  map (fun x => (vehicleCount x, congestionLevel x)) (App.history (app r.1))
  = [(JNumber 5, JString "Medium")]
  /\ isRateLimited (feed r.1) = false.
Proof. split; reflexivity. Qed.

(** Scenario B: three quota failures in a row wait 10, 20 and 40 s, the
    rate-limited flag being raised after each. *)
Example scenario_quota :
  let cy t := {| domReady := true; frame := inr "AAAA"%string;
                 service := Sample.env (Some "key"%string) (Sample.failure "HTTP 429");
                 isMounted := true; catchNow := t |} in
  let r1 := loop Sample.running 1700000000000 (cy 1700000000500%Z) Sample.world in
  let r2 := loop Sample.running 1700000010500 (cy 1700000011000%Z) r1.1 in
  let r3 := loop Sample.running 1700000031000 (cy 1700000031500%Z) r2.1 in
  (r1.2, r2.2, r3.2) = (Some 10000, Some 20000, Some 40000)
  /\ (isRateLimited (feed r1.1), isRateLimited (feed r2.1), isRateLimited (feed r3.1))
     = (true, true, true)
  /\ errorCountRef (feed r3.1) = 3%nat.
Proof. vm_compute. repeat split. Qed.

(** Stopping (analysis switched off, or the stream gone) resets the
    scheduler: counter and retry instant back to 0, flag cleared, no timer. *)
Lemma stop_resets c now cy w :
  isAnalyzing c = false \/ streamActive c = false ->
  analysisEffect c now cy w = (onFeed stopReset w, None)
  /\ errorCountRef (stopReset (feed w)) = 0%nat
  /\ nextRetryTimeRef (stopReset (feed w)) = 0
  /\ isRateLimited (stopReset (feed w)) = false.
Proof.
  intros Hstop. unfold analysisEffect.
  destruct Hstop as [-> | ->]; [|rewrite andb_false_r]; repeat split.
Qed.

(** The countdown shown during a 10 s backoff: 10 at the failure, 9 after
    the first tick, 0 after the tenth, which also ends the interval. *)
Example countdown_of_first_backoff :
  let cy := Sample.cycle (Some "key"%string) (Sample.failure "HTTP 429") in
  let s := feed (loop Sample.running 1700000000000 cy Sample.world).1 in
  retryCountdown s = 10%Z
  /\ retryCountdown (countdownTick s) = 9%Z
  /\ retryCountdown (Nat.iter 10 countdownTick s) = 0%Z
  /\ remaining (Nat.iter 9 countdownTick s) = Some 1000
  /\ remaining (Nat.iter 10 countdownTick s) = None.
Proof. vm_compute. repeat split. Qed.

(** An error of the service that happens to be named [SecurityError] is
    taken for a cross-origin failure: it goes to the error handler, which
    switches analysis off. *)
Example security_named_service_error_halts :
  let err := {| err_name := "SecurityError"; err_message := "blocked";
                err_json := "{}"; err_string := "SecurityError: blocked" |} in
  let cy := Sample.cycle (Some "key"%string) (geminiService.CallThrows err) in
  let r := loop Sample.running 1700000000000 cy Sample.world in
  geminiService.analyzeTrafficFrame (service cy) "AAAA" = inl err
  /\ App.isAnalyzing (app r.1) = false
  /\ App.error (app r.1) = Some corsMessage.
Proof. repeat split. Qed.

End Scenarios.

(** * More on the history, the chart and the page ([App.tsx], [AnalysisChart]) *)

Section Page.

Context {A : Type}.
Implicit Types (xs ys : list A).

(** Slicing what was sliced before an append loses nothing more. *)
Lemma sliceLast_app_sliced n xs ys :
  App.sliceLast n (App.sliceLast n xs ++ ys) = App.sliceLast n (xs ++ ys).
Proof.
  unfold App.sliceLast. rewrite !length_app, length_drop.
  destruct (decide (length xs <= n)) as [Hle|Hgt].
  - replace (length xs - n) with 0 by lia. simpl.
    now replace (length xs - 0) with (length xs) by lia.
  - replace (length xs - (length xs - n) + length ys - n) with (length ys) by lia.
    replace (length xs + length ys - n)
      with ((length xs - n) + length ys) by lia.
    rewrite <- drop_drop. f_equal. symmetry. apply drop_app_le. lia.
Qed.

(** A shorter slice of a longer slice is the shorter slice. *)
Lemma sliceLast_sliceLast n m xs :
  n <= m -> App.sliceLast n (App.sliceLast m xs) = App.sliceLast n xs.
Proof.
  intros Hnm. unfold App.sliceLast. rewrite length_drop, drop_drop.
  f_equal. lia.
Qed.

End Page.

Lemma last_map {A B : Type} (f : A -> B) (xs : list A) :
  last (map f xs) = f <$> last xs.
Proof.
  induction xs as [|x xs IH] using rev_ind; [reflexivity|].
  rewrite map_app. simpl. now rewrite !last_snoc.
Qed.

Lemma appended_snoc es e :
  AppView.appended (es ++ [e])
  = AppView.appended es
    ++ match e with App.AnalysisComplete r => [r] | _ => [] end.
Proof.
  unfold AppView.appended. rewrite omap_app. f_equal. now destruct e.
Qed.

Lemma run_snoc s es e : App.run s (es ++ [e]) = App.step (App.run s es) e.
Proof. apply foldl_snoc. Qed.

Lemma run_history_sliced (es : list App.Event) :
  App.history (App.run App.initial es) = App.sliceLast 50 (AppView.appended es).
Proof.
  induction es as [|e es IH] using rev_ind; [reflexivity|].
  rewrite run_snoc, appended_snoc. destruct e; simpl.
  - rewrite IH. apply sliceLast_app_sliced.
  - now rewrite app_nil_r.
  - now rewrite app_nil_r.
Qed.

(** X1.  The buffer is exactly the last 50 of all the results ever completed, in
    the order they came; the other events leave it alone.  The "Samples"
    tile, [history.length], therefore shows the number of results up to 50
    and 50 from then on. *)
Theorem history_is_last_50_completed (es : list App.Event) :
  App.history (App.run App.initial es) = App.sliceLast 50 (AppView.appended es)
  /\ length (App.history (App.run App.initial es))
     = min 50 (length (AppView.appended es)).
Proof.
  pose proof (run_history_sliced es) as H.
  split; [exact H|]. rewrite H. apply sliceLast_length.
Qed.


(** X3.  The chart plots the last 20 of all the results ever completed: the cap
    of the history at 50 never takes a point away from it.  It has as many
    points as there are results, up to 20, each with a level of 1, 2 or 3,
    and the placeholder is shown exactly when there is no point to plot. *)
Theorem chart_is_last_20_completed (es : list App.Event) :
  let history := App.history (App.run App.initial es) in
  AnalysisChart.data history
  = map AnalysisChart.point (App.sliceLast 20 (AppView.appended es))
  /\ length (AnalysisChart.data history) = min 20 (length (AppView.appended es))
  /\ Forall (fun p => (1 <= AnalysisChart.level p <= 3)%Z) (AnalysisChart.data history)
  /\ (AnalysisChart.waiting history = true <-> AnalysisChart.data history = []).
Proof.
  intros history.
  pose proof (run_history_sliced es) as Hh. fold history in Hh.
  assert (Hdata : AnalysisChart.data history
                  = map AnalysisChart.point (App.sliceLast 20 (AppView.appended es))).
  { unfold AnalysisChart.data. rewrite Hh. f_equal.
    apply sliceLast_sliceLast. lia. }
  split; [exact Hdata|]. split; [|split].
  - rewrite Hdata, length_map. apply sliceLast_length.
  - unfold AnalysisChart.data. apply List.Forall_forall. intros p Hp.
    apply in_map_iff in Hp. destruct Hp as (item & <- & _).
    unfold AnalysisChart.point, AnalysisChart.levelOf. simpl.
    repeat case_match; lia.
  - unfold AnalysisChart.waiting, AnalysisChart.data. rewrite Nat.eqb_eq.
    split.
    + intros Hz. apply nil_length_inv in Hz. now rewrite Hz.
    + intros Hnil. apply (f_equal length) in Hnil.
      rewrite length_map, sliceLast_length in Hnil.
      change (length (@nil AnalysisChart.ChartDataPoint)) with 0 in Hnil. lia.
Qed.

(** X4.  The rightmost point of the chart is the result shown in the status
    card: in every state the page reaches, the last chart point is the
    point of [latestResult], and there is none exactly when it is null. *)
Theorem chart_ends_with_latest (es : list App.Event) :
  let s := App.run App.initial es in
  last (AnalysisChart.data (App.history s))
  = AnalysisChart.point <$> App.latestResult s.
Proof.
  intros s.
  assert (Hinv : App.latestIsLast s) by (apply run_latestIsLast; reflexivity).
  unfold App.latestIsLast in Hinv. rewrite Hinv.
  unfold AnalysisChart.data, App.sliceLast.
  rewrite last_map. f_equal.
  destruct (App.history s) as [|x xs] using rev_ind; [reflexivity|].
  rewrite length_app. simpl. rewrite drop_app_le by lia.
  now rewrite !last_snoc.
Qed.

(** X5.  The status card and the chart agree on what a congestion level is.  A
    value that is none of "Low", "Medium", "High" (a result whose level is
    missing, or no result at all) gets the neutral text colour, the neutral
    background and an empty bar, and only such a value does; the three
    levels get three different colours.  The chart tells "High" (3) and
    "Medium" (2) apart and plots everything else, recognised or not, as 1. *)
Theorem level_rendering_agrees (level : JSValue) :
  (isCongestionLevel level = false
   <-> AppView.getCongestionColor level = "text-slate-400"%string)
  /\ (isCongestionLevel level = false
      <-> AppView.getCongestionBg level = "bg-slate-800/50 border-slate-700"%string)
  /\ (isCongestionLevel level = false
      <-> AppView.barClass level = "w-0"%string)
  /\ (AnalysisChart.levelOf level = 3%Z <-> level = JString "High")
  /\ (AnalysisChart.levelOf level = 2%Z <-> level = JString "Medium")
  /\ (AnalysisChart.levelOf level = 1%Z
      <-> level <> JString "High" /\ level <> JString "Medium").
Proof.
  unfold AppView.getCongestionColor, AppView.getCongestionBg, AppView.barClass,
    AppView.levelIs, AnalysisChart.levelOf, isCongestionLevel.
  destruct level as [| |b|q|s|items|fields];
    try solve [repeat split; intros; try discriminate; try congruence;
               try (destruct H; congruence)].
  destruct (String.eqb s "Low") eqn:HL, (String.eqb s "Medium") eqn:HM,
           (String.eqb s "High") eqn:HH;
    rewrite ?String.eqb_eq, ?String.eqb_neq in *; subst; simpl;
    repeat split; intros; try discriminate; try congruence;
    try (destruct H; congruence).
Qed.

(** What the page shows with no result yet is what it shows for a result
    without a level. *)
Lemma latestLevel_initial :
  AppView.latestLevel App.initial = JUndefined
  /\ AppView.getCongestionColor (AppView.latestLevel App.initial)
     = "text-slate-400"%string.
Proof. split; reflexivity. Qed.

Section Peak.

Local Open Scope Q_scope.

Lemma peakCount_nonneg counts : 0 <= AppView.peakCount counts.
Proof.
  induction counts as [|x xs IH]; simpl.
  - apply Qle_refl.
  - eapply Qle_trans; [exact IH|]. apply Q.le_max_r.
Qed.

Lemma peakCount_upper counts : Forall (fun x => x <= AppView.peakCount counts) counts.
Proof.
  induction counts as [|x xs IH]; simpl; constructor.
  - apply Q.le_max_l.
  - eapply Forall_impl; [exact IH|]. simpl. intros y Hy.
    eapply Qle_trans; [exact Hy|]. apply Q.le_max_r.
Qed.

Lemma peakCount_attained counts :
  AppView.peakCount counts == 0 \/ Exists (fun x => x == AppView.peakCount counts) counts.
Proof.
  induction counts as [|x xs IH]; simpl.
  - left. reflexivity.
  - destruct (Q.max_spec x (AppView.peakCount xs)) as [[Hlt Heq]|[Hle Heq]].
    + destruct IH as [IH|IH].
      * left. now rewrite Heq.
      * right. apply Exists_cons_tl. eapply Exists_impl; [exact IH|].
        simpl. intros y Hy. now rewrite Heq.
    + right. apply Exists_cons_hd. now rewrite Heq.
Qed.

Lemma peakCount_snoc counts x :
  AppView.peakCount (counts ++ [x]) == Qmax (AppView.peakCount counts) x.
Proof.
  induction counts as [|y ys IH]; simpl.
  - pose proof (Q.max_spec x 0) as H1. pose proof (Q.max_spec 0 x) as H2.
    destruct H1 as [[? ->]|[? ->]], H2 as [[? ->]|[? ->]]; lra.
  - rewrite IH. apply Q.max_assoc.
Qed.

(** X6.  The "Peak Count" tile, [Math.max(...counts, 0)]: it is never negative,
    no count exceeds it, and it is 0 or one of the counts; so an empty
    history, or one of negative counts only, shows 0.  A further count [x]
    raises it to [max(peak, x)]. *)
Theorem peak_count_is_the_maximum (counts : list Q) (x : Q) :
  0 <= AppView.peakCount counts
  /\ Forall (fun c => c <= AppView.peakCount counts) counts
  /\ (AppView.peakCount counts == 0
      \/ Exists (fun c => c == AppView.peakCount counts) counts)
  /\ AppView.peakCount [] = 0
  /\ AppView.peakCount (counts ++ [x]) == Qmax (AppView.peakCount counts) x.
Proof.
  split; [apply peakCount_nonneg|]. split; [apply peakCount_upper|].
  split; [apply peakCount_attained|]. split; [reflexivity|].
  apply peakCount_snoc.
Qed.

(** Every history of well-typed results has numeric counts. *)
Lemma numericCounts_wellTyped history :
  Forall (fun r => wellTyped r = true) history ->
  exists counts, AppView.numericCounts history = Some counts
                 /\ length counts = length history.
Proof.
  induction 1 as [|r rs Hr _ IH].
  - exists []. split; reflexivity.
  - destruct IH as (counts & Hc & Hlen).
    unfold wellTyped in Hr. repeat (apply andb_prop in Hr; destruct Hr as [Hr ?]).
    unfold AppView.numericCounts in *. simpl.
    destruct (vehicleCount r) as [| | |q| | |]; try discriminate.
    simpl. rewrite Hc. simpl. exists (q :: counts). split; [reflexivity|].
    simpl. now rewrite Hlen.
Qed.

End Peak.

(** * Substring tests and the classification of errors *)

Section Substring.

Lemma append_String a (s t : string) : String a s +:+ t = String a (s +:+ t).
Proof. reflexivity. Qed.

Lemma append_Empty (t : string) : EmptyString +:+ t = t.
Proof. reflexivity. Qed.

Lemma prefix_spec needle : forall hay,
  String.prefix needle hay = true <-> exists post, hay = needle +:+ post.
Proof.
  induction needle as [|a needle IH]; intros hay.
  - split; [intros _; now exists hay|intros _; now destruct hay].
  - destruct hay as [|b hay]; simpl.
    + split; [discriminate|]. intros [post H]. rewrite append_String in H.
      discriminate H.
    + destruct (Ascii.ascii_dec a b) as [->|Hne].
      * rewrite IH. split; intros [post H]; exists post;
          rewrite append_String in *; congruence.
      * split; [discriminate|]. intros [post H]. rewrite append_String in H.
        congruence.
Qed.

Lemma includes_nil needle :
  includes EmptyString needle = String.prefix needle EmptyString.
Proof. unfold includes. apply orb_false_r. Qed.

Lemma includes_cons a hay needle :
  includes (String a hay) needle
  = String.prefix needle (String a hay) || includes hay needle.
Proof. reflexivity. Qed.

(** [includes] is containment: the needle occurs somewhere in the text. *)
Lemma includes_spec hay : forall needle,
  includes hay needle = true <-> exists pre post, hay = pre +:+ needle +:+ post.
Proof.
  induction hay as [|a hay IH]; intros needle.
  - rewrite includes_nil, prefix_spec. split.
    + intros [post H]. now exists EmptyString, post.
    + intros (pre & post & H). destruct pre as [|b pre].
      * rewrite append_Empty in H. now exists post.
      * rewrite append_String in H. discriminate H.
  - rewrite includes_cons, orb_true_iff, prefix_spec, IH. split.
    + intros [[post H]|(pre & post & H)].
      * now exists EmptyString, post.
      * exists (String a pre), post. rewrite append_String. now rewrite H.
    + intros (pre & post & H). destruct pre as [|b pre].
      * left. rewrite append_Empty in H. now exists post.
      * right. rewrite append_String in H. exists pre, post. congruence.
Qed.

(** A text that contains a non-empty needle is not empty. *)
Lemma includes_nonempty hay needle :
  includes hay needle = true -> needle <> EmptyString -> hay <> EmptyString.
Proof.
  intros Hinc Hne ->. rewrite includes_nil in Hinc.
  destruct needle; [congruence|discriminate Hinc].
Qed.

Lemma str_or_nonempty (s t : string) : s <> EmptyString -> str_or s t = s.
Proof.
  intros Hs. unfold str_or. apply String.eqb_neq in Hs. now rewrite Hs.
Qed.

(** The analyzer's test, in words: one of its four markers occurs in the
    message. *)
Lemma quotaMarker_spec msg :
  geminiService.quotaMarker msg = true
  <-> exists m pre post,
        m ∈ ["429"; "RESOURCE_EXHAUSTED"; "quota"; "exceeded"]%string
        /\ msg = pre +:+ m +:+ post.
Proof.
  unfold geminiService.quotaMarker. rewrite !orb_true_iff, !includes_spec. split.
  - intros [[[H|H]|H]|H]; destruct H as (pre & post & H);
      eexists _, pre, post; (split; [|exact H]); set_solver.
  - intros (m & pre & post & Hm & ->).
    repeat (apply elem_of_cons in Hm; destruct Hm as [->|Hm]);
      [left; left; left|left; left; right|left; right|right|];
      try (now exists pre, post).
    apply elem_of_nil in Hm. destruct Hm.
Qed.

Lemma quotaMarker_nonempty msg :
  geminiService.quotaMarker msg = true -> msg <> EmptyString.
Proof. intros H ->. discriminate H. Qed.

End Substring.

Section Classification.

Import CameraFeed.
Local Open Scope Q_scope.

(** Once the image reaches the analyzer, its outcome decides the branch. *)
Lemma branch_of_outcome c now cy w img :
  Trace.reachesAnalyzer c now cy w img ->
  branch c now cy w
  = match geminiService.analyzeTrafficFrame (service cy) img with
    | inr _ => Completed
    | inl e =>
        if String.eqb (err_name e) "SecurityError" then Completed
        else if isQuota e then QuotaFailure else TransientFailure
    end.
Proof.
  intros (Han & Hact & Hwait & Hdom & Hmounted & Hframe).
  unfold branch, captureAndAnalyze.
  rewrite Han, Hact, Hwait, Hdom, Hmounted, Hframe. simpl.
  destruct (geminiService.analyzeTrafficFrame (service cy) img) as [e|r];
    [|reflexivity].
  destruct (String.eqb (err_name e) "SecurityError"); reflexivity.
Qed.

Lemma analyzeTrafficFrame_marker env img a k e :
  geminiService.API_KEY env = Some (String a k) ->
  geminiService.tryBody env img = inl e ->
  geminiService.quotaMarker (err_message e) = true ->
  geminiService.analyzeTrafficFrame env img = inl (newError "QUOTA_EXCEEDED").
Proof.
  intros Hkey Htry Hmark. unfold geminiService.analyzeTrafficFrame.
  rewrite Hkey, Htry.
  rewrite (str_or_nonempty _ _ (quotaMarker_nonempty _ Hmark)).
  now rewrite Hmark.
Qed.

(** X7.  Quota detection is by substring.  Whatever goes wrong inside the
    analyzer's [try] block (the service call, the empty-answer check, the
    JSON parse, a property read), if the error's message contains "429",
    "RESOURCE_EXHAUSTED", "quota" or "exceeded" anywhere, the analyzer drops
    the error and raises [Error("QUOTA_EXCEEDED")] in its place, whatever
    the error's name; the loop recognises that one, raises the rate-limited
    flag and re-arms itself after the backoff delay. *)
Theorem quota_marker_anywhere_backs_off
  (c : Closure) (now : Z) (cy : Cycle) (w : World) (img : string)
  (a : Ascii.ascii) (k : string) (e : JsError) (m pre post : string) :
  Trace.reachesAnalyzer c now cy w img ->
  geminiService.API_KEY (service cy) = Some (String a k) ->
  geminiService.tryBody (service cy) img = inl e ->
  m ∈ ["429"; "RESOURCE_EXHAUSTED"; "quota"; "exceeded"]%string ->
  err_message e = pre +:+ m +:+ post ->
  geminiService.analyzeTrafficFrame (service cy) img = inl (newError "QUOTA_EXCEEDED")
  /\ branch c now cy w = QuotaFailure
  /\ (loop c now cy w).2 = Some (backoffMs (errorCountRef (feed w) + 1))
  /\ isRateLimited (feed (loop c now cy w).1) = true
  /\ app (loop c now cy w).1 = app w.
Proof.
  intros Hreach Hkey Htry Hm Hmsg.
  assert (Hmark : geminiService.quotaMarker (err_message e) = true)
    by (apply quotaMarker_spec; eauto).
  pose proof (analyzeTrafficFrame_marker _ _ _ _ _ Hkey Htry Hmark) as Hraise.
  assert (Hb : branch c now cy w = QuotaFailure)
    by (rewrite (branch_of_outcome _ _ _ _ _ Hreach), Hraise; reflexivity).
  split; [exact Hraise|]. split; [exact Hb|].
  rewrite (loop_QuotaFailure _ _ _ _ Hb). simpl. auto.
Qed.

(** X7, on a sample: an HTTP error page that mentions a quota. *)
Lemma quota_marker_anywhere_backs_off_witness :
  let e := {| err_name := "ApiError";
              err_message := "Daily quota used up";
              err_json := "{}";
              err_string := "ApiError: Daily quota used up" |} in
  let cy := Sample.cycle (Some "key"%string) (geminiService.CallThrows e) in
  geminiService.analyzeTrafficFrame (service cy) "AAAA" = inl (newError "QUOTA_EXCEEDED")
  /\ branch Sample.running 1700000000000 cy Sample.world = QuotaFailure
  /\ (loop Sample.running 1700000000000 cy Sample.world).2 = Some (backoffMs 1)
  /\ isRateLimited (feed (loop Sample.running 1700000000000 cy Sample.world).1) = true
  /\ app (loop Sample.running 1700000000000 cy Sample.world).1 = app Sample.world.
Proof.
  intros e cy.
  assert (Hreach : Trace.reachesAnalyzer Sample.running 1700000000000 cy
                     Sample.world "AAAA") by (repeat split).
  assert (Hm : "quota"%string ∈ ["429"; "RESOURCE_EXHAUSTED"; "quota"; "exceeded"]%string)
    by (apply list_elem_of_lookup; exists 2%nat; reflexivity).
  exact (quota_marker_anywhere_backs_off
           Sample.running 1700000000000%Z cy Sample.world "AAAA"%string
           _ _ e "quota"%string "Daily "%string " used up"%string
           Hreach eq_refl eq_refl Hm eq_refl).
Defined.

(** X8.  What leaves the analyzer is already classified.  An error it raises is
    its own missing-key error, its own [Error("QUOTA_EXCEEDED")], or the
    error of the [try] block unchanged; when that error has a message, the
    message contains none of the analyzer's four markers.  So of the loop's
    three tests only the one for "QUOTA_EXCEEDED" can succeed on such an
    error: the loop's tests for "429" and "RESOURCE_EXHAUSTED" never do. *)
Theorem analyzer_errors_are_classified
  (env : geminiService.Env) (img : string) (e : JsError) :
  geminiService.analyzeTrafficFrame env img = inl e ->
  err_message e <> EmptyString ->
  (e = newError "API Key not found in environment variables."
   \/ e = newError "QUOTA_EXCEEDED"
   \/ geminiService.tryBody env img = inl e)
  /\ geminiService.quotaMarker (err_message e) = false
  /\ includes (err_message e) "429" = false
  /\ includes (err_message e) "RESOURCE_EXHAUSTED" = false
  /\ isQuota e = includes (err_message e) "QUOTA_EXCEEDED"
  /\ CameraFeedTsx.isQuota e = includes (err_message e) "QUOTA_EXCEEDED".
Proof.
  intros Hraise Hmsg.
  assert (Hkinds : (e = newError "API Key not found in environment variables."
                    \/ e = newError "QUOTA_EXCEEDED"
                    \/ geminiService.tryBody env img = inl e)
                   /\ geminiService.quotaMarker (err_message e) = false).
  { unfold geminiService.analyzeTrafficFrame in Hraise.
    destruct (geminiService.API_KEY env) as [[|a k]|].
    - injection Hraise as <-. split; [now left|reflexivity].
    - destruct (geminiService.tryBody env img) as [e'|r]; [|discriminate].
      destruct (geminiService.quotaMarker (str_or (err_message e') (err_string e')))
        eqn:Hmark; injection Hraise as <-.
      + split; [right; now left|reflexivity].
      + split; [right; now right|].
        now rewrite (str_or_nonempty _ _ Hmsg) in Hmark.
    - injection Hraise as <-. split; [now left|reflexivity]. }
  destruct Hkinds as [Hkinds Hmark]. split; [exact Hkinds|]. split; [exact Hmark|].
  unfold geminiService.quotaMarker in Hmark.
  apply orb_false_iff in Hmark as [Hmark _].
  apply orb_false_iff in Hmark as [Hmark _].
  apply orb_false_iff in Hmark as [H429 Hres].
  split; [exact H429|]. split; [exact Hres|].
  unfold isQuota, CameraFeedTsx.isQuota.
  rewrite (str_or_nonempty _ _ Hmsg), H429, Hres, !orb_false_r. split; reflexivity.
Qed.

(** X8, on a sample: a 500 of the service passes through unchanged and is no
    quota error for the loop. *)
Lemma analyzer_errors_are_classified_witness :
  let e := newError "500 Internal error" in
  let env := Sample.env (Some "key"%string) (geminiService.CallThrows e) in
  geminiService.analyzeTrafficFrame env "AAAA" = inl e
  /\ geminiService.tryBody env "AAAA" = inl e
  /\ isQuota e = false.
Proof.
  intros e env.
  assert (Hraise : geminiService.analyzeTrafficFrame env "AAAA" = inl e)
    by reflexivity.
  assert (Hmsg : err_message e <> EmptyString) by discriminate.
  destruct (analyzer_errors_are_classified env "AAAA"%string e Hraise Hmsg)
    as (_ & _ & _ & _ & Hq & _).
  split; [exact Hraise|]. split; [reflexivity|]. rewrite Hq. reflexivity.
Defined.

(** X9.  An answer with no text, and an answer that is the JSON [null], are
    passing failures: the analyzer raises "No response from Gemini", or the
    [TypeError] of the property read on [null], neither is taken for a quota
    error, and the loop changes nothing and retries after 1.5 times the
    interval. *)
Theorem empty_and_null_answers_are_transient
  (c : Closure) (now : Z) (cy : Cycle) (w : World) (img : string)
  (a : Ascii.ascii) (k : string) :
  Trace.reachesAnalyzer c now cy w img ->
  geminiService.API_KEY (service cy) = Some (String a k) ->
  geminiService.generateContent (service cy) img
    = geminiService.CallReturns geminiService.NoText
  \/ geminiService.generateContent (service cy) img
     = geminiService.CallReturns (geminiService.Parsed JNull) ->
  branch c now cy w = TransientFailure
  /\ loop c now cy w = (w, Some (intervalMs c * 1.5)).
Proof.
  intros Hreach Hkey Hanswer.
  assert (Hb : branch c now cy w = TransientFailure).
  { rewrite (branch_of_outcome _ _ _ _ _ Hreach).
    unfold geminiService.analyzeTrafficFrame, geminiService.tryBody.
    rewrite Hkey. destruct Hanswer as [-> | ->]; reflexivity. }
  split; [exact Hb|]. apply loop_TransientFailure, Hb.
Qed.

(** X9, on a sample: the service answers with the JSON [null]. *)
Lemma empty_and_null_answers_are_transient_witness :
  let cy := Sample.cycle (Some "key"%string)
              (geminiService.CallReturns (geminiService.Parsed JNull)) in
  branch Sample.running 1700000000000 cy Sample.world = TransientFailure
  /\ loop Sample.running 1700000000000 cy Sample.world
     = (Sample.world, Some (App.intervalMs * 1.5)).
Proof.
  intros cy.
  assert (Hreach : Trace.reachesAnalyzer Sample.running 1700000000000 cy
                     Sample.world "AAAA") by (repeat split).
  exact (empty_and_null_answers_are_transient
           Sample.running 1700000000000%Z cy Sample.world "AAAA"%string
           _ _ Hreach eq_refl (or_intror eq_refl)).
Defined.

End Classification.

(** * More on the loop: its gate, its counter, its countdown *)

Section Gate.

Import CameraFeed.
Local Open Scope Q_scope.

Lemma loop_gated c now cy w :
  isAnalyzing c = false \/ streamActive c = false \/ mustWait now (feed w) = true ->
  loop c now cy w
  = (w, if (isAnalyzing c && streamActive c)%bool then Some 1000 else None).
Proof.
  intros Hgate. unfold loop.
  destruct (isAnalyzing c), (streamActive c); simpl; auto.
  destruct Hgate as [H|[H|H]]; try discriminate. now rewrite H.
Qed.

(** X10.  The loop is gated.  While analysis is off or the stream is not active
    a call returns at once; before the retry instant it only re-polls a
    second later.  In both cases nothing is captured and the analyzer is
    not called: the world is unchanged, and the outcome does not depend on
    what the camera or the service would have answered. *)
Theorem loop_is_gated (c : Closure) (now : Z) (cy cy' : Cycle) (w : World) :
  isAnalyzing c = false \/ streamActive c = false \/ mustWait now (feed w) = true ->
  loop c now cy w
  = (w, if (isAnalyzing c && streamActive c)%bool then Some 1000 else None)
  /\ loop c now cy' w = loop c now cy w.
Proof.
  intros Hgate. split.
  - apply loop_gated, Hgate.
  - now rewrite !(loop_gated _ _ _ _ Hgate).
Qed.

(** X10, on a sample: ten seconds into a backoff of two minutes, a service
    that would answer is not asked. *)
Lemma loop_is_gated_witness :
  let w := onFeed (setNextRetryTime 1700000120000) Sample.world in
  let cy := Sample.cycle (Some "key"%string) (Sample.answer []) in
  let cy' := Sample.cycle (Some "key"%string) (Sample.failure "HTTP 429") in
  loop Sample.running 1700000010000 cy w = (w, Some 1000)
  /\ loop Sample.running 1700000010000 cy' w = loop Sample.running 1700000010000 cy w.
Proof.
  intros w cy cy'.
  exact (loop_is_gated Sample.running 1700000010000%Z cy cy' w
           (or_intror (or_intror eq_refl))).
Defined.

(** X11.  A quota failure closes the gate until the backoff has run out.  With
    the deadline at the clock reading of the failure plus the backoff, any
    call of a running loop before the deadline changes nothing and re-polls
    after a second, and any call at or after it is let through. *)
Theorem quota_failure_closes_gate
  (c : Closure) (now : Z) (cy : Cycle) (w : World)
  (c' : Closure) (t : Z) (cy' : Cycle) :
  branch c now cy w = QuotaFailure ->
  isAnalyzing c' = true ->
  streamActive c' = true ->
  let w' := (loop c now cy w).1 in
  let deadline := inject_Z (catchNow cy) + backoffMs (errorCountRef (feed w) + 1) in
  nextRetryTimeRef (feed w') = deadline
  /\ (mustWait t (feed w') = true <-> inject_Z t < deadline)
  /\ (inject_Z t < deadline -> loop c' t cy' w' = (w', Some 1000))
  /\ (deadline <= inject_Z t -> branch c' t cy' w' <> Waiting).
Proof.
  intros Hb Han Hact w' deadline.
  assert (Hnext : nextRetryTimeRef (feed w') = deadline).
  { subst w'. now rewrite (loop_QuotaFailure _ _ _ _ Hb). }
  assert (Hwait : mustWait t (feed w') = true <-> inject_Z t < deadline).
  { unfold mustWait. rewrite Hnext, negb_true_iff.
    rewrite <- not_true_iff_false, Qle_bool_iff. split.
    - apply Qnot_le_lt.
    - apply Qlt_not_le. }
  split; [exact Hnext|]. split; [exact Hwait|]. split.
  - intros Hlt. apply Hwait in Hlt.
    rewrite (loop_gated c' t cy' w' (or_intror (or_intror Hlt))).
    now rewrite Han, Hact.
  - intros Hge Hbr.
    assert (Hm : mustWait t (feed w') = false).
    { apply not_true_is_false. intros Hm. apply Hwait in Hm.
      apply Qlt_not_le in Hm. contradiction. }
    unfold branch in Hbr. rewrite Han, Hact, Hm in Hbr. simpl in Hbr.
    repeat case_match; discriminate.
Qed.

(** X11, on a sample: a first 429 at ...000500 closes the gate for 10 s. *)
Lemma quota_failure_closes_gate_witness :
  let cy := Sample.cycle (Some "key"%string) (Sample.failure "HTTP 429") in
  let w' := (loop Sample.running 1700000000000 cy Sample.world).1 in
  nextRetryTimeRef (feed w') = 1700000010500
  /\ mustWait 1700000010499 (feed w') = true
  /\ mustWait 1700000010500 (feed w') = false.
Proof.
  intros cy w'.
  assert (Hb : branch Sample.running 1700000000000 cy Sample.world = QuotaFailure)
    by (vm_compute; reflexivity).
  destruct (quota_failure_closes_gate
              Sample.running 1700000000000%Z cy Sample.world
              Sample.running 1700000010499%Z cy Hb eq_refl eq_refl)
    as (Hnext & _).
  split; [exact Hnext|]. split; reflexivity.
Defined.



(** X13.  The cross-origin test looks at the error's name only, wherever the
    error comes from.  An error named [SecurityError] that the analyzer
    lets through is reported as the CORS failure: the CORS message becomes
    the application's error and analysis is switched off; no result is
    added, the counter is reset as after a success and no backoff starts. *)
Theorem security_named_analysis_error_stops_analysis
  (c : Closure) (now : Z) (cy : Cycle) (w : World) (img : string) (err : JsError) :
  Trace.reachesAnalyzer c now cy w img ->
  geminiService.analyzeTrafficFrame (service cy) img = inl err ->
  err_name err = "SecurityError"%string ->
  let r := loop c now cy w in
  App.isAnalyzing (app r.1) = false
  /\ App.error (app r.1) = Some corsMessage
  /\ App.history (app r.1) = App.history (app w)
  /\ feed r.1 = setIsRateLimited false (setErrorCount 0 (feed w))
  /\ r.2 = Some (intervalMs c).
Proof.
  intros (Han & Hact & Hwait & Hdom & Hmounted & Hframe) Herr Hname r. subst r.
  unfold loop, captureAndAnalyze.
  rewrite Han, Hact, Hwait, Hdom, Hmounted, Hframe, Herr, Hname. simpl. auto.
Qed.

(** X13, on a sample: the service call itself fails with a [SecurityError]. *)
Lemma security_named_analysis_error_stops_analysis_witness :
  let err := {| err_name := "SecurityError"; err_message := "blocked";
                err_json := "{}"; err_string := "SecurityError: blocked" |} in
  let cy := Sample.cycle (Some "key"%string) (geminiService.CallThrows err) in
  let r := loop Sample.running 1700000000000 cy Sample.world in
  App.isAnalyzing (app r.1) = false
  /\ App.error (app r.1) = Some corsMessage
  /\ r.2 = Some App.intervalMs.
Proof.
  intros err cy r.
  assert (Hreach : Trace.reachesAnalyzer Sample.running 1700000000000 cy
                     Sample.world "AAAA") by (repeat split).
  destruct (security_named_analysis_error_stops_analysis
              Sample.running 1700000000000%Z cy Sample.world "AAAA"%string err
              Hreach eq_refl eq_refl) as (Hoff & Hmsg & _ & _ & Htimer).
  split; [exact Hoff|]. split; [exact Hmsg|exact Htimer].
Defined.

End Gate.

Section Counter.

Import CameraFeed.
Local Open Scope Q_scope.

(** What a call of [loop] does to the failure counter. *)
Lemma loop_errorCount c now cy w :
  errorCountRef (feed (loop c now cy w).1)
  = match branch c now cy w with
    | Completed => 0%nat
    | QuotaFailure => (errorCountRef (feed w) + 1)%nat
    | _ => errorCountRef (feed w)
    end.
Proof.
  destruct (branch c now cy w) eqn:Hb.
  - now rewrite (loop_Idle _ _ _ _ Hb).
  - now rewrite (loop_Waiting _ _ _ _ Hb).
  - rewrite (loop_Cancelled _ _ _ _ Hb). apply captureAndAnalyze_refs.
  - now rewrite (loop_Completed _ _ _ _ Hb).
  - now rewrite (loop_QuotaFailure _ _ _ _ Hb).
  - now rewrite (loop_TransientFailure _ _ _ _ Hb).
Qed.

(** X14.  A run of quota failures escalates step by step.  When every one of a
    series of calls ends in a quota failure, the [i]-th of them re-arms the
    loop after the backoff of a counter [i] above the one the series
    started from, the counter ends that many higher, and the application
    state is as before. *)
Theorem consecutive_quota_failures_escalate
  (c : Closure) (calls : list (Z * Cycle)) (w : World) :
  Forall (fun b => b = QuotaFailure) (Trace.branches c calls w) ->
  Trace.timers c calls w
  = map (fun i => Some (backoffMs (errorCountRef (feed w) + i))) (seq 1 (length calls))
  /\ errorCountRef (feed (Trace.runLoop c calls w))
     = (errorCountRef (feed w) + length calls)%nat
  /\ app (Trace.runLoop c calls w) = app w.
Proof.
  revert w. induction calls as [|[now cy] calls IH]; intros w Hall; simpl.
  - repeat split. lia.
  - simpl in Hall. apply Forall_cons in Hall as [Hb Hall].
    destruct (IH _ Hall) as (Htimers & Hcount & Happ).
    rewrite Htimers, Hcount, Happ, loop_errorCount, Hb.
    rewrite (loop_QuotaFailure _ _ _ _ Hb). simpl.
    split; [|split; [lia|reflexivity]].
    f_equal. rewrite <- (seq_shift (length calls) 1), map_map.
    apply map_ext. intros i. do 2 f_equal. lia.
Qed.

(** X14, on a sample: three 429 in a row from a fresh scheduler wait 10, 20
    and 40 s. *)
Lemma consecutive_quota_failures_escalate_witness :
  let cy t := {| domReady := true; frame := inr "AAAA"%string;
                 service := Sample.env (Some "key"%string) (Sample.failure "HTTP 429");
                 isMounted := true; catchNow := t |} in
  let calls := [(1700000000000, cy 1700000000500);
                (1700000010500, cy 1700000011000);
                (1700000031000, cy 1700000031500)]%Z in
  Trace.timers Sample.running calls Sample.world
  = [Some (backoffMs 1); Some (backoffMs 2); Some (backoffMs 3)]
  /\ (backoffMs 1 == 10000 /\ backoffMs 2 == 20000 /\ backoffMs 3 == 40000)
  /\ errorCountRef (feed (Trace.runLoop Sample.running calls Sample.world)) = 3%nat.
Proof.
  intros cy calls.
  assert (Hall : Forall (fun b => b = QuotaFailure)
                   (Trace.branches Sample.running calls Sample.world))
    by (repeat constructor).
  destruct (consecutive_quota_failures_escalate Sample.running calls Sample.world Hall)
    as (Htimers & Hcount & _).
  split; [exact Htimers|]. split; [|exact Hcount].
  repeat split.
Defined.

(** X15.  The escalation starts over after a success, a stop and the manual
    override: each leaves the counter at 0, so the next quota failure waits
    the floor of 10 s again, however long the previous backoff was. *)
Theorem first_failure_after_reset_waits_floor
  (c0 : Closure) (now0 : Z) (cy0 : Cycle) (w0 : World)
  (c : Closure) (now : Z) (cy : Cycle) (w : World) :
  feed w = stopReset (feed w0)
  \/ feed w = handleForceRetry (feed w0)
  \/ (branch c0 now0 cy0 w0 = Completed /\ w = (loop c0 now0 cy0 w0).1) ->
  branch c now cy w = QuotaFailure ->
  (loop c now cy w).2 = Some (backoffMs 1)
  /\ backoffMs 1 == backoffFloor
  /\ errorCountRef (feed (loop c now cy w).1) = 1%nat.
Proof.
  intros Hreset Hb.
  assert (Hzero : errorCountRef (feed w) = 0%nat).
  { destruct Hreset as [-> |[-> |[Hb0 ->]]]; try reflexivity.
    now rewrite loop_errorCount, Hb0. }
  rewrite loop_errorCount, Hb, (loop_QuotaFailure _ _ _ _ Hb), Hzero.
  repeat split.
Qed.

(** X15, on a sample: the override after five quota failures, then a 429. *)
Lemma first_failure_after_reset_waits_floor_witness :
  let w0 := onFeed (fun s => setIsRateLimited true (setErrorCount 5 s)) Sample.world in
  let w := onFeed handleForceRetry w0 in
  let cy := Sample.cycle (Some "key"%string) (Sample.failure "HTTP 429") in
  backoffMs 6 == 120000
  /\ (loop Sample.running 1700000000000 cy w).2 = Some (backoffMs 1)
  /\ backoffMs 1 == 10000.
Proof.
  intros w0 w cy.
  assert (Hb : branch Sample.running 1700000000000 cy w = QuotaFailure)
    by (vm_compute; reflexivity).
  destruct (first_failure_after_reset_waits_floor
              Sample.running 0%Z cy w0 Sample.running 1700000000000%Z cy w
              (or_intror (or_introl eq_refl)) Hb) as (Htimer & Hfloor & _).
  split; [reflexivity|]. split; [exact Htimer|exact Hfloor].
Defined.

End Counter.

Section Countdown.

Import CameraFeed.
Local Open Scope Q_scope.











End Countdown.

(** * The video source *)

Section Source.

Import CameraFeed VideoSource.

Implicit Types (st : VideoSource.State) (gum : JsError + list nat)
  (play : option JsError).

(** With every running track attached, stopping the attached stream stops
    them all. *)
Lemma stopAttached_live st : attached st -> liveTracks (stopAttached st) = ∅.
Proof.
  intros Hatt. apply set_eq. intros t. split; [|set_solver].
  intros Ht. exfalso. unfold stopAttached in Ht.
  destruct (video st) as [v|] eqn:Hv; [destruct (srcObject v) as [tracks|] eqn:Hs|];
    simpl in Ht.
  - apply elem_of_difference in Ht as [Ht Hn].
    destruct (Hatt t Ht) as (v' & tracks' & Hv' & Hs' & Hin).
    rewrite Hv in Hv'. injection Hv' as <-. rewrite Hs in Hs'. injection Hs' as <-.
    apply Hn. now apply elem_of_list_to_set.
  - destruct (Hatt t Ht) as (v' & tracks' & Hv' & Hs' & _). congruence.
  - destruct (Hatt t Ht) as (v' & tracks' & Hv' & _). congruence.
Qed.

Lemma stopAttached_video st : video (stopAttached st) = video st.
Proof.
  unfold stopAttached.
  destruct (video st) as [v|] eqn:Hv; [destruct (srcObject v)|]; simpl; auto.
Qed.

Lemma stopAttached_sourceType st : sourceType (stopAttached st) = sourceType st.
Proof.
  unfold stopAttached.
  destruct (video st) as [v|]; [destruct (srcObject v)|]; reflexivity.
Qed.

Lemma stopAttached_attached st : attached st -> attached (stopAttached st).
Proof.
  intros Hatt t Ht. rewrite (stopAttached_live st Hatt) in Ht. set_solver.
Qed.

Lemma releaseAttached_live st : attached st -> liveTracks (releaseAttached st) = ∅.
Proof.
  intros Hatt. pose proof (stopAttached_live st Hatt) as H.
  unfold stopAttached in H. unfold releaseAttached.
  repeat case_match; exact H.
Qed.

Lemma releaseAttached_video st v :
  video st = Some v ->
  video (releaseAttached st) = Some {| srcObject := None; src := src v |}.
Proof.
  intros Hv. unfold releaseAttached. rewrite Hv.
  destruct v as [[tracks|] s]; simpl; [reflexivity|exact Hv].
Qed.

Lemma releaseAttached_world st : world (releaseAttached st) = world st.
Proof.
  unfold releaseAttached.
  destruct (video st) as [v|]; [destruct (srcObject v)|]; reflexivity.
Qed.

(** No running track left behind: nothing attached, nothing running. *)
Lemma attached_of_empty st : liveTracks st = ∅ -> attached st.
Proof. intros H t Ht. rewrite H in Ht. set_solver. Qed.

Lemma startCamera_live st gum v :
  attached st -> video st = Some v ->
  liveTracks (startCamera gum st)
  = match gum with inr stream => list_to_set stream | inl _ => ∅ end
  /\ video (startCamera gum st)
     = match gum with
       | inr stream => Some {| srcObject := Some stream; src := EmptyString |}
       | inl _ => Some {| srcObject := None; src := src v |}
       end.
Proof.
  intros Hatt Hv. unfold startCamera.
  pose proof (releaseAttached_live st Hatt) as Hlive.
  pose proof (releaseAttached_video st v Hv) as Hvideo.
  destruct gum as [err|stream]; simpl.
  - split; assumption.
  - rewrite Hvideo. simpl. rewrite Hlive. split; [|reflexivity].
    apply union_empty_l_L.
Qed.

Lemma startCamera_attached st gum :
  attached st -> is_Some (video st) ->
  attached (startCamera gum st) /\ is_Some (video (startCamera gum st)).
Proof.
  intros Hatt [v Hv].
  destruct (startCamera_live st gum v Hatt Hv) as [Hlive Hvideo].
  split.
  - intros t Ht. rewrite Hlive in Ht. destruct gum as [err|stream]; [set_solver|].
    eexists _, stream. split; [exact Hvideo|]. split; [reflexivity|].
    now apply elem_of_list_to_set in Ht.
  - rewrite Hvideo. destruct gum; eauto.
Qed.

Lemma startUrlStream_attached st play :
  attached st -> attached (startUrlStream play st).
Proof.
  intros Hatt. unfold startUrlStream.
  destruct (String.eqb (activeUrl st) EmptyString); [exact Hatt|].
  destruct (video st) as [v|] eqn:Hv; [|exact Hatt].
  apply attached_of_empty.
  pose proof (releaseAttached_live st Hatt) as H. destruct play; exact H.
Qed.

Lemma startUrlStream_live st play :
  liveTracks st = ∅ -> liveTracks (startUrlStream play st) = ∅.
Proof.
  intros Hlive. unfold startUrlStream.
  destruct (String.eqb (activeUrl st) EmptyString); [exact Hlive|].
  destruct (video st) as [v|] eqn:Hv; [|exact Hlive].
  pose proof (releaseAttached_live st (attached_of_empty st Hlive)) as H.
  destruct play; exact H.
Qed.

Lemma startUrlStream_video st play :
  is_Some (video st) -> is_Some (video (startUrlStream play st)).
Proof.
  intros [v Hv]. unfold startUrlStream.
  destruct (String.eqb (activeUrl st) EmptyString); [eauto|].
  rewrite Hv. destruct play; simpl; eauto.
Qed.

Lemma switchEffect_attached st gum play :
  attached st -> is_Some (video st) ->
  attached (switchEffect gum play st) /\ is_Some (video (switchEffect gum play st)).
Proof.
  intros Hatt Hv. unfold switchEffect. simpl.
  destruct (sourceType st).
  - apply startCamera_attached; assumption.
  - split; [apply startUrlStream_attached|apply startUrlStream_video]; assumption.
Qed.

Lemma reswitch_attached st gum play :
  attached st -> is_Some (video st) ->
  attached (reswitch gum play st) /\ is_Some (video (reswitch gum play st)).
Proof.
  intros Hatt Hv. unfold reswitch. apply switchEffect_attached.
  - apply stopAttached_attached, Hatt.
  - now rewrite stopAttached_video.
Qed.

Lemma step_attached st e :
  attached st -> is_Some (video st) ->
  attached (VideoSource.step st e) /\ is_Some (video (VideoSource.step st e)).
Proof.
  intros Hatt Hv. destruct e as [gum play|k gum play|u|gum play|gum|gum play|]; simpl.
  - apply switchEffect_attached; assumption.
  - unfold setSourceType. destruct (kind_eqb k (sourceType st)); [auto|].
    apply reswitch_attached; assumption.
  - auto.
  - unfold submitUrl, handleUrlSubmit.
    destruct (String.eqb (urlInput st) EmptyString).
    + rewrite String.eqb_refl. auto.
    + simpl. destruct (String.eqb (urlInput st) (activeUrl st)); [auto|].
      apply reswitch_attached; assumption.
  - unfold retryAccess. destruct (permissionDenied (feed (world st))); [|auto].
    apply startCamera_attached; assumption.
  - unfold useUrlInstead. destruct (permissionDenied (feed (world st))); [|auto].
    unfold setSourceType. simpl. destruct (sourceType st); simpl; [|auto].
    apply reswitch_attached; assumption.
  - auto.
Qed.

Lemma run_attached es : forall st,
  attached st -> is_Some (video st) ->
  attached (VideoSource.run st es) /\ is_Some (video (VideoSource.run st es)).
Proof.
  unfold VideoSource.run.
  induction es as [|e es IH]; intros st Hatt Hv; simpl; [auto|].
  destruct (step_attached st e Hatt Hv) as [Hatt' Hv']. now apply IH.
Qed.

(** X18.  No camera track is orphaned.  From the mounted component on, whatever
    the user does to the source (switch it, submit a URL, retry the camera)
    and whatever the camera and the player answer, every track still
    running belongs to the stream attached to the video element: each
    starter stops the tracks of the stream it replaces.  It is assumed that
    one acquisition has ended before the next one starts. *)
Theorem no_orphaned_tracks (app0 : App.State) (es : list VideoSource.Event) :
  attached (VideoSource.run (mounted app0) es)
  /\ is_Some (video (VideoSource.run (mounted app0) es)).
Proof.
  apply run_attached.
  - apply attached_of_empty. reflexivity.
  - simpl. eauto.
Qed.

(** X19.  Switching to the URL source releases the camera.  If every running
    track was attached, then after the switch none is running, the boxes
    drawn for the old source are gone, and the stream counts as active
    exactly when there is a video element, a URL has been submitted and
    the player could start it. *)
Theorem switching_to_url_releases_camera st gum play :
  attached st ->
  sourceType st = webcam ->
  let st' := setSourceType url gum play st in
  liveTracks st' = ∅
  /\ sourceType st' = url
  /\ detectedBoxes (feed (world st')) = JArray []
  /\ (isStreamActive (feed (world st')) = true
      <-> is_Some (video st) /\ activeUrl st <> EmptyString /\ play = None).
Proof.
  intros Hatt Hkind st'. subst st'. unfold setSourceType. rewrite Hkind. simpl.
  unfold reswitch, switchEffect. simpl.
  set (st0 := withWorld _ (stopAttached (withSourceType url st))).
  assert (Hlive0 : liveTracks st0 = ∅)
    by (subst st0; simpl; apply (stopAttached_live (withSourceType url st)), Hatt).
  assert (Hvideo0 : video st0 = video st)
    by (subst st0; simpl; apply (stopAttached_video (withSourceType url st))).
  assert (Hurl0 : activeUrl st0 = activeUrl st)
    by (subst st0; unfold stopAttached; simpl; repeat case_match; reflexivity).
  assert (Hkind0 : sourceType st0 = url)
    by (subst st0; unfold stopAttached; simpl; repeat case_match; reflexivity).
  assert (Hboxes0 : detectedBoxes (feed (world st0)) = JArray []
                    /\ isStreamActive (feed (world st0)) = false)
    by (subst st0; unfold stopAttached; simpl; repeat case_match; split; reflexivity).
  rewrite (stopAttached_sourceType (withSourceType url st)). simpl.
  split; [apply startUrlStream_live, Hlive0|].
  clearbody st0. unfold startUrlStream. rewrite Hurl0, Hvideo0.
  destruct Hboxes0 as [Hboxes0 Hactive0].
  destruct (String.eqb_spec (activeUrl st) EmptyString) as [Heq|Hne].
  - rewrite Hkind0, Hboxes0, Hactive0. repeat split; try discriminate.
    intros (_ & Hne & _). contradiction.
  - destruct (video st) as [v|]; simpl.
    + pose proof (releaseAttached_world st0) as Hw.
      destruct play as [err|]; simpl; rewrite Hw, ?Hboxes0.
      * split; [unfold releaseAttached; repeat case_match; exact Hkind0|].
        split; [reflexivity|]. split; [discriminate|]. intros (_ & _ & H). discriminate H.
      * split; [unfold releaseAttached; repeat case_match; exact Hkind0|].
        split; [reflexivity|]. split; [eauto|reflexivity].
    + rewrite Hkind0, Hboxes0, Hactive0. repeat split; try discriminate.
      intros ([v Hv] & _). discriminate Hv.
Qed.

(** X19, on a sample: the webcam runs two tracks, a URL was submitted while the
    settings were open, and the user switches to it. *)
Lemma switching_to_url_releases_camera_witness :
  let st := withActiveUrl "https://example.org/road.mp4"
              (VideoSource.run (mounted App.initial) [Mount (inr [1; 2]) None]) in
  let st' := setSourceType url (inr [3]) None st in
  liveTracks st = {[1; 2]}
  /\ liveTracks st' = ∅
  /\ sourceType st' = url
  /\ detectedBoxes (feed (world st')) = JArray []
  /\ isStreamActive (feed (world st')) = true.
Proof.
  intros st st'.
  assert (Hatt : attached st).
  { apply (run_attached [Mount (inr [1; 2]) None] (mounted App.initial)).
    - apply attached_of_empty. reflexivity.
    - simpl. eauto. }
  destruct (switching_to_url_releases_camera st (inr [3]) None Hatt eq_refl)
    as (Hlive & Hkind & Hboxes & Hactive).
  split; [vm_compute; reflexivity|].
  split; [exact Hlive|]. split; [exact Hkind|]. split; [exact Hboxes|].
  apply Hactive. split; [simpl; eauto|]. split; [discriminate|reflexivity].
Defined.

(** X20.  Starting the camera replaces the stream.  With a video element and
    every running track attached, a granted request leaves exactly the
    tracks of the new stream running, attached, with the stream active and
    the denied overlay off; a refused request leaves no track running, the
    stream inactive and the denied overlay on, and hands the message for
    the error's name to the error handler, which switches analysis off. *)
Theorem camera_start_replaces_stream st gum (v : Element) :
  attached st ->
  video st = Some v ->
  let st' := startCamera gum st in
  match gum with
  | inr stream =>
      liveTracks st' = list_to_set stream
      /\ video st' = Some {| srcObject := Some stream; src := EmptyString |}
      /\ isStreamActive (feed (world st')) = true
      /\ permissionDenied (feed (world st')) = false
      /\ app (world st') = app (world st)
  | inl err =>
      liveTracks st' = ∅
      /\ isStreamActive (feed (world st')) = false
      /\ permissionDenied (feed (world st')) = true
      /\ permissionErrorMsg (feed (world st')) = cameraErrorMsg err
      /\ App.isAnalyzing (app (world st')) = false
      /\ App.error (app (world st')) = Some (cameraErrorMsg err)
  end.
Proof.
  intros Hatt Hv st'.
  destruct (startCamera_live st gum v Hatt Hv) as [Hlive Hvideo].
  subst st'. destruct gum as [err|stream].
  - split; [exact Hlive|]. unfold startCamera. simpl. repeat split.
  - split; [exact Hlive|]. split; [exact Hvideo|].
    unfold startCamera. simpl. rewrite (releaseAttached_video st v Hv). simpl.
    rewrite releaseAttached_world. repeat split.
Qed.

(** X20, on a sample: the camera is busy when the user retries it. *)
Lemma camera_start_replaces_stream_witness :
  let st := VideoSource.run (mounted (App.toggleAnalysis App.initial))
              [Mount (inr [1; 2]) None] in
  let busy := {| err_name := "NotReadableError"; err_message := "busy";
                 err_json := "{}"; err_string := "NotReadableError: busy" |} in
  let st' := startCamera (inl busy) st in
  liveTracks st' = ∅
  /\ isStreamActive (feed (world st')) = false
  /\ permissionDenied (feed (world st')) = true
  /\ App.isAnalyzing (app (world st')) = false
  /\ App.error (app (world st'))
     = Some "Camera is currently in use by another application."%string.
Proof.
  intros st busy st'.
  assert (Hatt : attached st).
  { apply (run_attached [Mount (inr [1; 2]) None]
             (mounted (App.toggleAnalysis App.initial))).
    - apply attached_of_empty. reflexivity.
    - simpl. eauto. }
  destruct (camera_start_replaces_stream st (inl busy) _ Hatt eq_refl)
    as (Hlive & Hactive & Hdenied & _ & Hoff & Herr).
  split; [exact Hlive|]. split; [exact Hactive|]. split; [exact Hdenied|].
  split; [exact Hoff|exact Herr].
Defined.

(** Submitting nothing new leaves the stream alone.  With an empty input
    the submit changes nothing at all; with the URL that is already active
    it only closes the settings panel.  In both cases the switch effect
    does not run: the element, the running tracks and the component state
    are as before. *)
Theorem resubmitting_url_keeps_stream st gum play :
  urlInput st = EmptyString \/ urlInput st = activeUrl st ->
  let st' := submitUrl gum play st in
  video st' = video st
  /\ liveTracks st' = liveTracks st
  /\ world st' = world st
  /\ activeUrl st' = activeUrl st
  /\ showSettings st'
     = (if String.eqb (urlInput st) EmptyString then showSettings st else false).
Proof.
  intros Hsame st'. subst st'. unfold submitUrl, handleUrlSubmit.
  destruct (String.eqb_spec (urlInput st) EmptyString) as [Hempty|Hne].
  - rewrite String.eqb_refl. repeat split.
  - destruct Hsame as [Hsame|Hsame]; [contradiction|].
    simpl. rewrite Hsame, String.eqb_refl. simpl. repeat split.
Qed.

(** On a sample: the empty form is submitted while the webcam runs. *)
Lemma resubmitting_url_keeps_stream_witness :
  let st := VideoSource.run (mounted App.initial) [Mount (inr [1; 2]) None] in
  let st' := submitUrl (inr [3]) None st in
  video st' = Some {| srcObject := Some [1; 2]; src := EmptyString |}
  /\ liveTracks st' = liveTracks st.
Proof.
  intros st st'.
  destruct (resubmitting_url_keeps_stream st (inr [3]) None (or_introl eq_refl))
    as (Hvideo & Hlive & _).
  split; [exact (eq_trans Hvideo eq_refl)|exact Hlive].
Defined.

End Source.

(** * The two revisions compared *)

Section TwoRevisions.

Import Revisions.
Local Open Scope Q_scope.

Lemma erase_captureAndAnalyze c cy w :
  CameraFeedTsx.captureAndAnalyze (eraseClosure c) (eraseCycle cy) (eraseWorld w)
  = (eraseWorld (CameraFeed.captureAndAnalyze c cy w).1,
     (CameraFeed.captureAndAnalyze c cy w).2).
Proof.
  unfold CameraFeedTsx.captureAndAnalyze, CameraFeed.captureAndAnalyze. simpl.
  destruct (negb (CameraFeed.domReady cy) || negb (CameraFeed.streamActive c))%bool;
    [reflexivity|].
  destruct (CameraFeed.frame cy) as [e|img].
  - destruct (String.eqb (err_name e) "SecurityError"); reflexivity.
  - destruct (geminiService.analyzeTrafficFrame (CameraFeed.service cy) img) as [e|r].
    + destruct (String.eqb (err_name e) "SecurityError"); reflexivity.
    + reflexivity.
Qed.

(** X21.  Past the gate the later revision does what the earlier one did.  On a
    call that need not wait, both take the same branch, and once the retry
    instant, the countdown and the overlay message are set aside the later
    revision ends in the state the earlier one ends in, with the same
    timer; only the backoff differs, which each takes from its own floor
    and ceiling. *)
Theorem later_revision_refines_earlier
  (c : CameraFeed.Closure) (now : Z) (cy : CameraFeed.Cycle) (w : CameraFeed.World) :
  CameraFeed.mustWait now (CameraFeed.feed w) = false ->
  let r := CameraFeed.loop c now cy w in
  let r' := CameraFeedTsx.loop (eraseClosure c) (eraseCycle cy) (eraseWorld w) in
  CameraFeedTsx.branch (eraseClosure c) (eraseCycle cy) (eraseWorld w)
  = eraseBranch (CameraFeed.branch c now cy w)
  /\ r'.1 = eraseWorld r.1
  /\ r'.2 = match CameraFeed.branch c now cy w with
            | CameraFeed.QuotaFailure =>
                Some (CameraFeedTsx.backoffMs
                        (CameraFeed.errorCountRef (CameraFeed.feed w) + 1))
            | _ => r.2
            end.
Proof.
  intros Hwait r r'. subst r r'.
  unfold CameraFeedTsx.branch, CameraFeed.branch, CameraFeedTsx.loop, CameraFeed.loop.
  rewrite erase_captureAndAnalyze, Hwait. simpl.
  destruct (negb (CameraFeed.isAnalyzing c) || negb (CameraFeed.streamActive c))%bool;
    [repeat split|].
  pose proof (captureAndAnalyze_throws c cy w) as Hw.
  destruct (CameraFeed.captureAndAnalyze c cy w) as [w1 [err|]]; simpl in *.
  - rewrite (Hw err eq_refl).
    destruct (CameraFeed.isMounted cy && CameraFeed.isAnalyzing c)%bool; simpl;
      [|repeat split].
    change (CameraFeedTsx.isQuota err) with (CameraFeed.isQuota err).
    destruct (CameraFeed.isQuota err); repeat split.
  - destruct (CameraFeed.isMounted cy && CameraFeed.isAnalyzing c)%bool;
      repeat split.
Qed.

(** X21, on a sample: a 429 costs 10 s in the later revision and 30 s in the
    earlier one; the rest of the outcome is the same. *)
Lemma later_revision_refines_earlier_witness :
  let cy := Sample.cycle (Some "key"%string) (Sample.failure "HTTP 429") in
  let r := CameraFeed.loop Sample.running 1700000000000 cy Sample.world in
  let r' := CameraFeedTsx.loop (eraseClosure Sample.running) (eraseCycle cy)
              (eraseWorld Sample.world) in
  r'.1 = eraseWorld r.1
  /\ r'.2 = Some (CameraFeedTsx.backoffMs 1)
  /\ r.2 = Some (CameraFeed.backoffMs 1).
Proof.
  intros cy r r'.
  destruct (later_revision_refines_earlier
              Sample.running 1700000000000%Z cy Sample.world eq_refl)
    as (_ & Hworld & Htimer).
  split; [exact Hworld|]. split; [exact Htimer|reflexivity].
Defined.

End TwoRevisions.
